(** * Klondike Solitaire: the solver worker ([src/unnamed/part_001],
    class [KlondikeSolver]) and the AI worker ([src/ai-worker.js], class
    [SolitaireAIWorker]), shallowly embedded.

    Conventions of the embedding.
    - A card is the JS object [{suit, value, faceUp}]; [value] is a JS number,
      kept as [Z]. Its identity is the pair [(suit, value)].
    - The JS object [foundations] (suit string -> array) is an association
      list in key insertion order, so [Object.values]/[Object.entries] keep
      their order. [tableau] is a JS array of arrays, a [list (list Card)];
      reading an index out of range gives [None] (JS [undefined]).
    - A pile's top card is the last element of the list ([pile[pile.length-1]]),
      [pop] is [removelast] and [push] is [++ [c]].
    - A JS exception is [None] in the option results. *)

From Stdlib Require Import List ZArith Lia Bool Permutation Sorted Arith.
Import ListNotations.
Open Scope Z_scope.

(** ** Cards and game states *)

(** The four suit strings ['♠' '♥' '♦' '♣']. *)
Inductive Suit := Spade | Heart | Diamond | Club.

Definition Suit_eq_dec (x y : Suit) : {x = y} + {x <> y}.
Proof. decide equality. Defined.

Definition suit_eqb (x y : Suit) : bool :=
  if Suit_eq_dec x y then true else false.

(** [(card.suit === '♠' || card.suit === '♣')] *)
Definition isBlack (s : Suit) : bool :=
  match s with Spade | Club => true | Heart | Diamond => false end.

Record Card := mkCard { suit : Suit; value : Z; faceUp : bool }.

Definition set_faceUp (c : Card) (b : bool) : Card :=
  mkCard (suit c) (value c) b.

(** The identity of a card, irrespective of its orientation. *)
Definition card_id (c : Card) : Suit * Z := (suit c, value c).

Record GameState := mkState {
  tableau : list (list Card);
  foundations : list (Suit * list Card);
  stock : list Card;
  waste : list Card;
  drawMode : option nat   (* [undefined] is [None] *)
}.

(** ** Array and object helpers *)

(** [pile[pile.length - 1]] *)
Definition top (p : list Card) : option Card :=
  match rev p with [] => None | c :: _ => Some c end.

(** [foundations[s]] *)
Fixpoint lookup_suit (fs : list (Suit * list Card)) (s : Suit)
  : option (list Card) :=
  match fs with
  | [] => None
  | (k, p) :: fs' => if suit_eqb k s then Some p else lookup_suit fs' s
  end.

(** [foundations[s] = p] for an existing key [s]. *)
Fixpoint update_suit (fs : list (Suit * list Card)) (s : Suit) (p : list Card)
  : list (Suit * list Card) :=
  match fs with
  | [] => []
  | (k, q) :: fs' =>
      if suit_eqb k s then (k, p) :: fs' else (k, q) :: update_suit fs' s p
  end.

(** [tableau[i] = p] for an index in range. *)
Fixpoint set_nth {A} (l : list A) (i : nat) (x : A) : list A :=
  match l, i with
  | [], _ => []
  | _ :: l', O => x :: l'
  | y :: l', S i' => y :: set_nth l' i' x
  end.

(** [if (pile.length > 0 && !pile[pile.length-1].faceUp)
       pile[pile.length-1].faceUp = true] *)
Definition flip_top (p : list Card) : list Card :=
  match top p with
  | Some c => if faceUp c then p else removelast p ++ [set_faceUp c true]
  | None => p
  end.

(** Sum of the foundation pile lengths:
    [Object.values(foundations).reduce((sum, pile) => sum + pile.length, 0)]. *)
Definition foundation_count (fs : list (Suit * list Card)) : nat :=
  fold_left (fun acc kp => (acc + length (snd kp))%nat) fs 0%nat.

(** All cards of a state, as identities (stock, waste, foundations, tableau). *)
Definition state_cards (gs : GameState) : list (Suit * Z) :=
  map card_id (stock gs ++ waste gs
               ++ concat (map snd (foundations gs)) ++ concat (tableau gs)).

(** Places a move can name: ['stock'], ['waste'], a tableau column index or a
    foundation suit key. *)
Inductive Loc := LStock | LWaste | LCol (n : nat) | LSuit (s : Suit).

(** [gameState.tableau[loc]]: [undefined] unless [loc] is a column in range. *)
Definition tab_at (t : list (list Card)) (l : Loc) : option (list Card) :=
  match l with LCol n => nth_error t n | _ => None end.

Definition tab_set (t : list (list Card)) (l : Loc) (p : list Card)
  : list (list Card) :=
  match l with LCol n => set_nth t n p | _ => t end.

(** [gameState.foundations[loc]] *)
Definition fnd_at (fs : list (Suit * list Card)) (l : Loc) : option (list Card) :=
  match l with LSuit s => lookup_suit fs s | _ => None end.

Definition fnd_set (fs : list (Suit * list Card)) (l : Loc) (p : list Card)
  : list (Suit * list Card) :=
  match l with LSuit s => update_suit fs s p | _ => fs end.

(** [for (let i = 0; i < 7; i++)], gathering the moves of each step and
    propagating an exception ([None]). *)
Fixpoint collect {A} (f : nat -> option (list A)) (l : list nat)
  : option (list A) :=
  match l with
  | [] => Some []
  | i :: l' =>
      match f i with
      | None => None
      | Some xs => match collect f l' with
                   | None => None
                   | Some ys => Some (xs ++ ys)
                   end
      end
  end.

Definition cols : list nat := seq 0 7.

(** [array.sort((a, b) => key(b) - key(a))]: [Array.prototype.sort] is stable,
    so its result is the stable sort by descending key, computed here by
    insertion. *)
Fixpoint insert_by {A} (key : A -> Z) (m : A) (l : list A) : list A :=
  match l with
  | [] => [m]
  | x :: l' => if key m <=? key x then x :: insert_by key m l' else m :: l
  end.

Definition sort_desc {A} (key : A -> Z) (l : list A) : list A :=
  fold_left (fun acc m => insert_by key m acc) l [].

(** ** The solver worker: [class KlondikeSolver] *)
Module Solver.

Inductive MoveType :=
  stock_to_waste | waste_to_foundation | waste_to_tableau
| tableau_to_foundation | tableau_to_tableau.

(** [{ type, from, to, card, sequenceLength }]; absent fields are [None]. *)
Record Move := mkMove {
  mtype : MoveType; mfrom : Loc; mto : Loc;
  mcard : option Card; sequenceLength : option nat
}.

(** [canPlaceOnFoundation(card, foundations)] *)
Definition canPlaceOnFoundation (c : Card) (fs : list (Suit * list Card)) : bool :=
  match lookup_suit fs (suit c) with
  | None => false
  | Some pile =>
      match top pile with
      | None => value c =? 1
      | Some tc => value c =? value tc + 1
      end
  end.

(** [canPlaceOnTableau(card, pile)] *)
Definition canPlaceOnTableau (c : Card) (pile : list Card) : bool :=
  match top pile with
  | None => value c =? 13
  | Some tc =>
      if negb (faceUp tc) then false
      else xorb (isBlack (suit c)) (isBlack (suit tc)) && (value c =? value tc - 1)
  end.

(** The face-up cards gathered from the top of a column down to the first
    face-down card, [unshift]ed so they keep column order. *)
Fixpoint take_faceup_rev (l : list Card) : list Card :=
  match l with
  | [] => []
  | c :: l' => if faceUp c then c :: take_faceup_rev l' else []
  end.

Definition faceUpCards (pile : list Card) : list Card :=
  rev (take_faceup_rev (rev pile)).

(** The sections of [generateAllMoves(gameState)]; [None] is the exception
    thrown when [gameState.tableau[col]] is [undefined] for some [col < 7]
    and its [.length] is read. *)

(** [// Stock to waste moves] *)
Definition gen_stock_to_waste (gs : GameState) : list Move :=
  match stock gs with
  | [] => []
  | _ => [mkMove stock_to_waste LStock LWaste None None]
  end.

(** [// Waste to foundation moves] *)
Definition gen_waste_to_foundation (gs : GameState) : list Move :=
  match top (waste gs) with
  | Some wc =>
      if canPlaceOnFoundation wc (foundations gs)
      then [mkMove waste_to_foundation LWaste (LSuit (suit wc)) (Some wc) None]
      else []
  | None => []
  end.

(** [// Waste to tableau moves] *)
Definition gen_waste_to_tableau (gs : GameState) : option (list Move) :=
  match top (waste gs) with
  | Some wc =>
      collect (fun col =>
        match nth_error (tableau gs) col with
        | None => None
        | Some p =>
            Some (if canPlaceOnTableau wc p
                  then [mkMove waste_to_tableau LWaste (LCol col) (Some wc) None]
                  else [])
        end) cols
  | None => Some []
  end.

(** [// Tableau to foundation moves] *)
Definition gen_tableau_to_foundation (gs : GameState) : option (list Move) :=
  collect (fun col =>
    match nth_error (tableau gs) col with
    | None => None
    | Some p =>
        Some (match top p with
              | Some tc =>
                  if faceUp tc && canPlaceOnFoundation tc (foundations gs)
                  then [mkMove tableau_to_foundation (LCol col) (LSuit (suit tc))
                          (Some tc) None]
                  else []
              | None => []
              end)
    end) cols.

(** The [toCol] loop of [// Tableau to tableau moves]. *)
Definition tt_targets (gs : GameState) (fromCol seqLen : nat) (cardToMove : Card)
  : option (list Move) :=
  collect (fun toCol =>
    if Nat.eqb fromCol toCol then Some []
    else match nth_error (tableau gs) toCol with
         | None => None
         | Some tp =>
             Some (if canPlaceOnTableau cardToMove tp
                   then [mkMove tableau_to_tableau (LCol fromCol) (LCol toCol)
                           (Some cardToMove) (Some seqLen)]
                   else [])
         end) cols.

(** [// Tableau to tableau moves]: [cardToMove = faceUpCards[0]] for every
    [seqLen]. *)
Definition gen_tableau_to_tableau (gs : GameState) : option (list Move) :=
  collect (fun fromCol =>
    match nth_error (tableau gs) fromCol with
    | None => None
    | Some [] => Some []
    | Some fromPile =>
        let fu := faceUpCards fromPile in
        collect (fun seqLen =>
          match fu with
          | [] => Some []
          | cardToMove :: _ => tt_targets gs fromCol seqLen cardToMove
          end) (seq 1 (length fu))
    end) cols.

(** [generateAllMoves(gameState)] *)
Definition generateAllMoves (gs : GameState) : option (list Move) :=
  match gen_waste_to_tableau gs, gen_tableau_to_foundation gs,
        gen_tableau_to_tableau gs with
  | Some wt, Some tf, Some tabtab =>
      Some (gen_stock_to_waste gs ++ gen_waste_to_foundation gs ++ wt ++ tf ++ tabtab)
  | _, _, _ => None
  end.

(** [move.type.includes('foundation')] *)
Definition is_foundation_move (m : Move) : bool :=
  match mtype m with
  | waste_to_foundation | tableau_to_foundation => true
  | _ => false
  end.

(** [getMoveScore(move, gameState)] *)
Definition getMoveScore (m : Move) (gs : GameState) : Z :=
  let s1 :=
    if is_foundation_move m then
      1000 + match mcard m with Some c => (14 - value c) * 10 | None => 0 end
    else 0 in
  let s2 :=
    match mtype m with
    | tableau_to_foundation | tableau_to_tableau =>
        match tab_at (tableau gs) (mfrom m) with
        | Some fromPile =>
            if (1 <? length fromPile)%nat then
              match nth_error fromPile (length fromPile - 2) with
              | Some below => if faceUp below then 0 else 500
              | None => 0
              end
            else 0
        | None => 0
        end
    | _ => 0
    end in
  let s3 :=
    match mcard m with
    | Some c =>
        if value c =? 13 then
          match tab_at (tableau gs) (mto m) with
          | Some [] => 300
          | _ => 0
          end
        else 0
    | None => 0
    end in
  s1 + s2 + s3.

(** [rankMoves(moves, gameState)] *)
Definition rankMoves (moves : list Move) (gs : GameState) : list Move :=
  sort_desc (fun m => getMoveScore m gs) moves.

(** [cloneGameState(gameState)]: copies tableau, foundations, stock and waste
    ([moves] and [startTs] are not modelled); [drawMode] is not copied. *)
Definition cloneGameState (gs : GameState) : GameState :=
  mkState (tableau gs) (foundations gs) (stock gs) (waste gs) None.

(** [applyMove(gameState, move)]: [None] is the [null] returned when the code
    throws (e.g. pushing onto [undefined]). *)
Definition applyMove (gs : GameState) (m : Move) : option GameState :=
  let ns := cloneGameState gs in
  let t := tableau ns in
  let fs := foundations ns in
  match mtype m with
  | stock_to_waste =>
      match top (stock ns) with
      | Some c => Some (mkState t fs (removelast (stock ns)) (waste ns ++ [c]) None)
      | None => Some ns
      end
  | waste_to_foundation =>
      match top (waste ns) with
      | Some c =>
          match fnd_at fs (mto m) with
          | Some fp => Some (mkState t (fnd_set fs (mto m) (fp ++ [c])) (stock ns)
                                     (removelast (waste ns)) None)
          | None => None
          end
      | None => Some ns
      end
  | waste_to_tableau =>
      match top (waste ns) with
      | Some c =>
          match tab_at t (mto m) with
          | Some tp => Some (mkState (tab_set t (mto m) (tp ++ [c])) fs (stock ns)
                                     (removelast (waste ns)) None)
          | None => None
          end
      | None => Some ns
      end
  | tableau_to_foundation =>
      match tab_at t (mfrom m) with
      | None => None
      | Some fromPile =>
          match top fromPile with
          | None => Some ns
          | Some c =>
              match fnd_at fs (mto m) with
              | Some fp =>
                  Some (mkState (tab_set t (mfrom m) (flip_top (removelast fromPile)))
                                (fnd_set fs (mto m) (fp ++ [c])) (stock ns) (waste ns) None)
              | None => None
              end
          end
      end
  | tableau_to_tableau =>
      let seqLen := match sequenceLength m with Some (S k) => S k | _ => 1%nat end in
      match tab_at t (mfrom m) with
      | None => None
      | Some sourcePile =>
          if (seqLen <=? length sourcePile)%nat then
            let keep := (length sourcePile - seqLen)%nat in
            let cardsToMove := skipn keep sourcePile in
            (* [sourcePile.splice(-seqLen)] *)
            let t1 := tab_set t (mfrom m) (firstn keep sourcePile) in
            (* [targetPile.push(...cardsToMove)]: the target array is read
               after the splice, which matters when it is the source array *)
            match tab_at t1 (mto m) with
            | None => None
            | Some targetPile =>
                let t2 := tab_set t1 (mto m) (targetPile ++ cardsToMove) in
                match tab_at t2 (mfrom m) with
                | Some sp => Some (mkState (tab_set t2 (mfrom m) (flip_top sp)) fs
                                           (stock ns) (waste ns) None)
                | None => None
                end
            end
          else Some ns
      end
  end.

(** [isGameWon(gameState)] *)
Definition isGameWon (gs : GameState) : bool :=
  Nat.eqb (foundation_count (foundations gs)) 52.

(** [hashGameState(gameState)]: the template string
    [T:<tableau>|F:<foundations>|W:<waste top>|S:<stock length>] kept as the
    tuple of its components; each card is rendered [value suit U/D], each
    foundation entry [suit:length], an empty waste ['empty']. *)
Definition HashKey : Type :=
  (list (list (Z * Suit * bool)) * list (Suit * nat) * option (Z * Suit) * nat)%type.

Definition HashKey_eq_dec (x y : HashKey) : {x = y} + {x <> y}.
Proof. repeat decide equality. Defined.

Definition hashGameState (gs : GameState) : HashKey :=
  (map (map (fun c => (value c, suit c, faceUp c))) (tableau gs),
   map (fun kp => (fst kp, length (snd kp))) (foundations gs),
   option_map (fun c => (value c, suit c)) (top (waste gs)),
   length (stock gs)).

(** The solver object's mutable field [visitedStates] (a JS [Set] of hashes)
    and the number of [Date.now()] readings so far. *)
Record Env := mkEnv { visited : list HashKey; tick : nat }.

Definition set_has (h : HashKey) (v : list HashKey) : bool :=
  if in_dec HashKey_eq_dec h v then true else false.

(** [Set.prototype.add]: appends a new element, keeps an existing one. *)
Definition set_add (h : HashKey) (v : list HashKey) : list HashKey :=
  if set_has h v then v else v ++ [h].

(** [Set.prototype.delete] *)
Definition set_delete (h : HashKey) (v : list HashKey) : list HashKey :=
  remove HashKey_eq_dec h v.

Section Search.
(** [Date.now()] at its [n]-th reading. *)
Variable now : nat -> Z.
(** [this.maxTime] and the [startTime] argument. *)
Variable maxTime startTime : Z.

(** The loop [for (const move of rankedMoves)] of [search], for the call on
    [gs] whose hash is [stateHash]; [rec] is the recursive [this.search] one
    level deeper. When the loop ends, [visitedStates.delete(stateHash)]. *)
Fixpoint search_loop
  (rec : GameState -> list Move -> Env -> option (bool * list Move) * Env)
  (gs : GameState) (moveSequence : list Move) (stateHash : HashKey)
  (ms : list Move) (env : Env) : option (bool * list Move) * Env :=
  match ms with
  | [] => (Some (false, []), mkEnv (set_delete stateHash (visited env)) (tick env))
  | m :: ms' =>
      match applyMove gs m with
      | None => search_loop rec gs moveSequence stateHash ms' env
      | Some newState =>
          match rec newState (moveSequence ++ [m]) env with
          | (None, env') => (None, env')
          | (Some (true, bm), env') => (Some (true, bm), env')
          | (Some (false, _), env') => search_loop rec gs moveSequence stateHash ms' env'
          end
      end
  end.

(** [search(gameState, moveSequence, depth, startTime)], with
    [rem = this.maxDepth - depth], so that [depth >= this.maxDepth] is
    [rem = 0]. The first component is [None] when the call throws. *)
Fixpoint search (rem : nat) (gs : GameState) (moveSequence : list Move) (env : Env)
  : option (bool * list Move) * Env :=
  let t := now (tick env) in
  let env := mkEnv (visited env) (S (tick env)) in
  if maxTime <? t - startTime then (Some (false, []), env) else
  match rem with
  | O => (Some (false, []), env)
  | S r =>
      if isGameWon gs then (Some (true, moveSequence), env) else
      let stateHash := hashGameState gs in
      if set_has stateHash (visited env) then (Some (false, []), env) else
      let env := mkEnv (set_add stateHash (visited env)) (tick env) in
      match generateAllMoves gs with
      | None => (None, env)
      | Some possibleMoves =>
          search_loop (search r) gs moveSequence stateHash
            (rankMoves possibleMoves gs) env
      end
  end.
End Search.

(** The object returned by [solve]. *)
Record SolveResult := mkResult {
  solvable : bool; bestMoves : list Move; minMoves : Z; error : option unit
}.

(** [this.maxTime = 10000] *)
Definition maxTime : Z := 10000.

(** [solve(gameState, maxDepth = 200)] on a solver object whose state is
    [env]; returns the result and the object's new state. *)
Definition solve (now : nat -> Z) (env : Env) (gs : GameState) (maxDepth : option nat)
  : SolveResult * Env :=
  let startTime := now (tick env) in
  let md := match maxDepth with Some d => d | None => 200%nat end in
  let env := mkEnv [] (S (tick env)) in
  match search now maxTime startTime md gs [] env with
  | (Some (true, bm), env') => (mkResult true bm (Z.of_nat (length bm)) None, env')
  | (Some (false, _), env') => (mkResult false [] (-1) None, env')
  | (None, env') => (mkResult false [] (-1) (Some tt), env')
  end.

(** Replaying a move list with [applyMove]. *)
Fixpoint replay (gs : GameState) (ms : list Move) : option GameState :=
  match ms with
  | [] => Some gs
  | m :: ms' => match applyMove gs m with
                | Some ns => replay ns ms'
                | None => None
                end
  end.

End Solver.

(** ** The AI worker: [class SolitaireAIWorker] *)
Module AI.

Inductive MoveType :=
  tableau_to_foundation | waste_to_foundation | tableau_to_tableau | draw_stock.

(** [{ type, from, to, card, priority, drawsNeeded }]: [from]/[to] are the
    objects [{source:'tableau', index}], [{source:'foundation', suit}],
    [{source:'waste'}] and [{source:'stock'}]; the advisory
    [stockRecommendation] is not modelled. *)
Record Move := mkMove {
  mtype : MoveType; mfrom : Loc; mto : Loc; mcard : option Card;
  priority : Z; drawsNeeded : Z
}.

(** [state.drawMode || 3] *)
Definition draw_mode (gs : GameState) : nat :=
  match drawMode gs with Some (S k) => S k | _ => 3%nat end.

(** [canPlaceOnFoundation(card, foundationPile)] *)
Definition canPlaceOnFoundation (c : Card) (pile : list Card) : bool :=
  match top pile with
  | None => value c =? 1
  | Some tc => suit_eqb (suit tc) (suit c) && (value tc =? value c - 1)
  end.

(** [canPlaceOnTableau(card, tableauPile)] *)
Definition canPlaceOnTableau (c : Card) (pile : list Card) : bool :=
  match top pile with
  | None => value c =? 13
  | Some tc =>
      if negb (faceUp tc) then false
      else negb (Bool.eqb (isBlack (suit c)) (isBlack (suit tc)))
           && (value c =? value tc - 1)
  end.

(** [isCardUsefulInPosition(card, state)] *)
Definition isCardUsefulInPosition (c : Card) (gs : GameState) : bool :=
  existsb (fun kp => canPlaceOnFoundation c (snd kp)) (foundations gs)
  || existsb (fun p => canPlaceOnTableau c p) (tableau gs).

(** An entry [{ card, drawNumber, useful }] of [simulateStockDraws]. *)
Record Upcoming := mkUpcoming { ucard : Card; drawNumber : Z; useful : bool }.

(** The [for (let draw = 0; ...)] loop of [simulateStockDraws], from draw
    number [draw] with [fuel] iterations left before [maxDraws]. *)
Fixpoint simulate_loop (gs : GameState) (dm : nat) (fuel : nat) (draw : Z)
  (stockCopy wasteCopy : list Card) : list Upcoming :=
  match fuel with
  | O => []
  | S f =>
      match stockCopy, wasteCopy with
      | [], [] => []
      | _, _ =>
          (* [if (stockCopy.length === 0) { stockCopy.push(...wasteCopy.reverse());
               wasteCopy.length = 0; }] *)
          let '(sc, wc) := match stockCopy with
                           | [] => (rev wasteCopy, [])
                           | _ => (stockCopy, wasteCopy)
                           end in
          let k := Nat.min dm (length sc) in
          let cardsDrawn := skipn (length sc - k) sc in
          let sc' := firstn (length sc - k) sc in
          match top cardsDrawn with
          | Some topCard =>
              mkUpcoming topCard (draw + 1) (isCardUsefulInPosition topCard gs)
                :: simulate_loop gs dm f (draw + 1) sc' (wc ++ cardsDrawn)
          | None => simulate_loop gs dm f (draw + 1) sc' (wc ++ cardsDrawn)
          end
      end
  end.

(** [simulateStockDraws(state, maxDraws)] *)
Definition simulateStockDraws (gs : GameState) (maxDraws : nat) : list Upcoming :=
  simulate_loop gs (draw_mode gs) maxDraws 0 (stock gs) (waste gs).

(** The fields [shouldDraw] and [drawsNeeded] of [analyzeStock(state)]
    (the advisory strings [reason] and [priority] are not modelled). *)
Record StockAnalysis := mkSA { shouldDraw : bool; sa_drawsNeeded : Z }.

Definition is_tableau_move (m : Move) : bool :=
  match mtype m with tableau_to_foundation | tableau_to_tableau => true | _ => false end.

(** [analyzeStock(state)], given the function it calls as
    [this.generateAllPossibleMoves]; [None] when that call throws. *)
Definition analyzeStock_with (genf : GameState -> option (list Move)) (gs : GameState)
  : option StockAnalysis :=
  match stock gs, waste gs with
  | [], [] => Some (mkSA false 0)
  | _, _ =>
      let upcomingCards := simulateStockDraws gs 10 in
      let nextUsefulCard := find useful upcomingCards in
      match genf gs with
      | None => None
      | Some availableMoves =>
          let tableauMoves := filter is_tableau_move availableMoves in
          if (length tableauMoves =? 0)%nat then
            match nextUsefulCard with
            | Some u => Some (mkSA true (drawNumber u))
            | None => Some (mkSA true 1)
            end
          else
            match nextUsefulCard with
            | Some u =>
                if (length tableauMoves <? 2)%nat && (drawNumber u <=? 3)
                then Some (mkSA true (drawNumber u))
                else if drawNumber u <=? 5 then Some (mkSA false (drawNumber u))
                else Some (mkSA false 0)
            | None => Some (mkSA false 0)
            end
      end
  end.

(** [for (let i = 0; i < state.tableau.length; i++)] *)
Definition tab_indices (gs : GameState) : list nat := seq 0 (length (tableau gs)).

(** [generateAllPossibleMoves(state)] with [fuel] nested calls left on the JS
    call stack: it calls [analyzeStock(state)], which calls
    [generateAllPossibleMoves(state)] again on the same state. [None] is the
    [RangeError] raised when the stack is exhausted. *)
Fixpoint generateAllPossibleMoves (fuel : nat) (gs : GameState) : option (list Move) :=
  match fuel with
  | O => None
  | S f =>
      let t := tableau gs in
      let fs := foundations gs in
      let tabFound :=
        flat_map (fun i =>
          match nth_error t i with
          | Some pile =>
              match top pile with
              | Some topCard =>
                  if faceUp topCard then
                    flat_map (fun kp =>
                      if canPlaceOnFoundation topCard (snd kp)
                      then [mkMove tableau_to_foundation (LCol i) (LSuit (fst kp))
                              (Some topCard) (1000 + value topCard) 0]
                      else []) fs
                  else []
              | None => []
              end
          | None => []
          end) (tab_indices gs) in
      let wasteFound :=
        match top (waste gs) with
        | Some topCard =>
            flat_map (fun kp =>
              if canPlaceOnFoundation topCard (snd kp)
              then [mkMove waste_to_foundation LWaste (LSuit (fst kp))
                      (Some topCard) (900 + value topCard) 0]
              else []) fs
        | None => []
        end in
      let tabTab :=
        flat_map (fun i =>
          match nth_error t i with
          | Some fromPile =>
              match top fromPile with
              | Some topCard =>
                  if faceUp topCard then
                    flat_map (fun j =>
                      match nth_error t j with
                      | Some toPile =>
                          if negb (Nat.eqb i j) && canPlaceOnTableau topCard toPile then
                            let p1 :=
                              if (1 <? length fromPile)%nat then
                                match nth_error fromPile (length fromPile - 2) with
                                | Some below => if faceUp below then 0 else 300
                                | None => 0
                                end
                              else 0 in
                            let p2 :=
                              if (value topCard =? 13) && (length toPile =? 0)%nat
                              then 200 else 0 in
                            [mkMove tableau_to_tableau (LCol i) (LCol j) (Some topCard)
                               (200 + p1 + p2) 0]
                          else []
                      | None => []
                      end) (tab_indices gs)
                  else []
              | None => []
              end
          | None => []
          end) (tab_indices gs) in
      let moves := tabFound ++ wasteFound ++ tabTab in
      match stock gs, waste gs with
      | [], [] => Some moves
      | _, _ =>
          match analyzeStock_with (generateAllPossibleMoves f) gs with
          | None => None
          | Some sa =>
              Some (moves ++ [mkMove draw_stock LStock LWaste None
                               (if shouldDraw sa then 15 else 5)
                               (if sa_drawsNeeded sa =? 0 then 1 else sa_drawsNeeded sa)])
          end
      end
  end.

(** [cloneGameState(state)] *)
Definition cloneGameState (gs : GameState) : GameState :=
  mkState (tableau gs) (foundations gs) (stock gs) (waste gs) (Some (draw_mode gs)).

(** [applyMoveToState(state, move)]. When the code throws, the [catch]
    returns the original [state]. [None] stands for a result in which
    [pop()] on an empty pile pushed [undefined] into a pile, which is not a
    card and has no representation in the card model. *)
Definition applyMoveToState (gs : GameState) (m : Move) : option GameState :=
  let ns := cloneGameState gs in
  let t := tableau ns in
  let fs := foundations ns in
  match mtype m with
  | tableau_to_foundation =>
      match tab_at t (mfrom m) with
      | None => Some gs
      | Some tableauPile =>
          match fnd_at fs (mto m) with
          | None => Some gs
          | Some fp =>
              match top tableauPile with
              | None => None
              | Some c =>
                  Some (mkState (tab_set t (mfrom m) (flip_top (removelast tableauPile)))
                                (fnd_set fs (mto m) (fp ++ [c])) (stock ns) (waste ns)
                                (drawMode ns))
              end
          end
      end
  | waste_to_foundation =>
      match fnd_at fs (mto m) with
      | None => Some gs
      | Some fp =>
          match top (waste ns) with
          | None => None
          | Some c => Some (mkState t (fnd_set fs (mto m) (fp ++ [c])) (stock ns)
                                    (removelast (waste ns)) (drawMode ns))
          end
      end
  | tableau_to_tableau =>
      match tab_at t (mfrom m) with
      | None => Some gs
      | Some fromPile =>
          let t1 := tab_set t (mfrom m) (removelast fromPile) in
          match tab_at t1 (mto m) with
          | None => Some gs
          | Some toPile =>
              match top fromPile with
              | None => None
              | Some movingCard =>
                  let t2 := tab_set t1 (mto m) (toPile ++ [movingCard]) in
                  match tab_at t2 (mfrom m) with
                  | Some fp' => Some (mkState (tab_set t2 (mfrom m) (flip_top fp')) fs
                                              (stock ns) (waste ns) (drawMode ns))
                  | None => Some gs
                  end
              end
          end
      end
  | draw_stock =>
      match stock ns with
      | _ :: _ =>
          let drawCount := Nat.min (draw_mode ns) (length (stock ns)) in
          let keep := (length (stock ns) - drawCount)%nat in
          Some (mkState t fs (firstn keep (stock ns))
                        (waste ns ++ skipn keep (stock ns)) (drawMode ns))
      | [] =>
          match waste ns with
          | _ :: _ => Some (mkState t fs (rev (waste ns)) [] (drawMode ns))
          | [] => Some ns
          end
      end
  end.

(** [isGameWon(state)] *)
Definition isGameWon (gs : GameState) : bool :=
  forallb (fun kp => Nat.eqb (length (snd kp)) 13) (foundations gs).

(** [revealsHiddenCard(move, gameState)] *)
Definition revealsHiddenCard (m : Move) (gs : GameState) : bool :=
  match mtype m with
  | tableau_to_foundation | tableau_to_tableau =>
      match tab_at (tableau gs) (mfrom m) with
      | Some pile =>
          if (1 <? length pile)%nat then
            match nth_error pile (length pile - 2) with
            | Some below => negb (faceUp below)
            | None => false
            end
          else false
      | None => false
      end
  | _ => false
  end.

(** [isEmptySpaceMove(move, gameState)] ([waste_to_tableau] is not a move
    type of this worker). *)
Definition isEmptySpaceMove (m : Move) (gs : GameState) : bool :=
  match mtype m with
  | tableau_to_tableau =>
      match tab_at (tableau gs) (mto m) with
      | Some [] => true
      | _ => false
      end
  | _ => false
  end.

Definition is_foundation_move (m : Move) : bool :=
  match mtype m with tableau_to_foundation | waste_to_foundation => true | _ => false end.

(** The [strategicValue] computed by [rankMovesByStrategicValue] for [move]
    among [moves]. *)
Definition strategicValue (moves : list Move) (gs : GameState) (m : Move) : Z :=
  priority m
  + (if is_foundation_move m then
       1000 + match mcard m with
              | Some c => if value c <=? 4 then 200 else 0
              | None => 0
              end
     else 0)
  + (if revealsHiddenCard m gs then 300 else 0)
  + match mcard m with
    | Some c => if (value c =? 13) && isEmptySpaceMove m gs then 250 else 0
    | None => 0
    end
  + match mtype m with
    | draw_stock =>
        if (0 <? length (filter (fun m' => match mtype m' with
                                           | draw_stock => false
                                           | _ => true end) moves))%nat
        then -100 else 0
    | _ => 0
    end.

(** [rankMovesByStrategicValue(moves, gameState)]: each move paired with its
    [strategicValue], sorted by it, descending. *)
Definition rankMovesByStrategicValue (moves : list Move) (gs : GameState)
  : list (Move * Z) :=
  sort_desc snd (map (fun m => (m, strategicValue moves gs m)) moves).

(** [isGoodSequence(cards)]: the loop over the pairs [(cards[i-1], cards[i])]. *)
Fixpoint good_pairs (prev : Card) (rest : list Card) : bool :=
  match rest with
  | [] => true
  | curr :: rest' =>
      if negb (faceUp curr) || negb (faceUp prev) then false
      else if negb (value curr =? value prev - 1) then false
      else if Bool.eqb (isBlack (suit curr)) (isBlack (suit prev)) then false
      else good_pairs curr rest'
  end.

Definition isGoodSequence (cards : list Card) : bool :=
  if (length cards <? 2)%nat then false
  else match cards with [] => false | c :: rest => good_pairs c rest end.

Definition is_tt (m : Move) : bool :=
  match mtype m with tableau_to_tableau => true | _ => false end.

(** [breaksGoodSequence(move, gameState)]: [pile.slice(-3)] on the source
    column. *)
Definition breaksGoodSequence (m : Move) (gs : GameState) : bool :=
  match tab_at (tableau gs) (mfrom m) with
  | Some pile =>
      if (3 <=? length pile)%nat then isGoodSequence (skipn (length pile - 3) pile)
      else false
  | None => false
  end.

(** [isProbablyBadMove(move, gameState)] *)
Definition isProbablyBadMove (m : Move) (gs : GameState) : bool :=
  if match mcard m with Some c => (value c =? 1) && is_tt m | None => false end
  then true
  else if is_tt m && breaksGoodSequence m gs then true
  else false.

(** The number of face-down cards of the tableau:
    [tableau.reduce((sum, pile) => sum + pile.filter(c => !c.faceUp).length, 0)]. *)
Definition hidden_count (t : list (list Card)) : nat :=
  fold_left (fun sum pile => (sum + length (filter (fun c => negb (faceUp c)) pile))%nat)
    t 0%nat.

(** [calculateProgressScore(newState, oldState)] *)
Definition calculateProgressScore (newState oldState : GameState) : Z :=
  let oldFoundationCards := Z.of_nat (foundation_count (foundations oldState)) in
  let newFoundationCards := Z.of_nat (foundation_count (foundations newState)) in
  let oldHiddenCards := Z.of_nat (hidden_count (tableau oldState)) in
  let newHiddenCards := Z.of_nat (hidden_count (tableau newState)) in
  (newFoundationCards - oldFoundationCards) * 10 + (oldHiddenCards - newHiddenCards) * 5.

(** [calculatePathConfidence(winningPath)] *)
Definition calculatePathConfidence (winningPath : list Move) : Z :=
  let lengthFactor := Z.max 20 (100 - Z.of_nat (length winningPath) * 2) in
  let foundationMoves := Z.of_nat (length (filter is_foundation_move winningPath)) in
  Z.min 95 (lengthFactor + foundationMoves * 5).

(** [depthRemaining > 100 ? 5 : depthRemaining > 50 ? 8 : 12] *)
Definition maxBranches (depthRemaining : nat) : nat :=
  if (100 <? depthRemaining)%nat then 5
  else if (50 <? depthRemaining)%nat then 8 else 12.

Section SearchWinningPath.
(** The stack available to [generateAllPossibleMoves] (see its fuel). *)
Variable stack : nat.

(** [searchWinningPath(gameState, moveSequence, depthRemaining)] for a
    non-negative integer [depthRemaining]. The outer [None] is an exception
    propagating out of the call; [Some None] is [null]; [Some (Some path)] a
    path. The [await]s only yield to the event loop and do not change the
    result. The moves of a path are the ranked objects [{...move,
    strategicValue}], kept here without their added [strategicValue]. A move
    whose application would push [undefined] ([None] of [applyMoveToState])
    is taken as an exception; it is never one the generator produces. *)
Fixpoint searchWinningPath (gs : GameState) (moveSequence : list Move)
  (depthRemaining : nat) : option (option (list Move)) :=
  if isGameWon gs then Some (Some moveSequence) else
  match depthRemaining with
  | O => Some None
  | S d' =>
      match generateAllPossibleMoves stack gs with
      | None => None
      | Some possibleMoves =>
          let rankedMoves := map fst (rankMovesByStrategicValue possibleMoves gs) in
          let fix loop (ms : list Move) : option (option (list Move)) :=
            match ms with
            | [] => Some None
            | m :: ms' =>
                if (75 <? depthRemaining)%nat && isProbablyBadMove m gs then loop ms'
                else
                  match applyMoveToState gs m with
                  | None => None
                  | Some newState =>
                      if (calculateProgressScore newState gs <? -10)
                         && (50 <? depthRemaining)%nat
                      then loop ms'
                      else
                        match searchWinningPath newState (moveSequence ++ [m]) d' with
                        | None => None
                        | Some (Some path) => Some (Some path)
                        | Some None => loop ms'
                        end
                  end
            end in
          loop (firstn (maxBranches depthRemaining) rankedMoves)
      end
  end.

End SearchWinningPath.

(** The object returned by [findWinningPath] ([timeTaken] is not modelled):
    [{ canWin: false, error }] or [{ canWin, moves, moveCount, confidence }]. *)
Inductive PathResult :=
| path_error
| path_result (canWin : bool) (moves : list Move) (moveCount : nat) (confidence : Z).

(** [findWinningPath(gameState, maxDepth = 150)] *)
Definition findWinningPath (stack : nat) (gs : GameState) (maxDepth : option nat)
  : PathResult :=
  match searchWinningPath stack gs [] (match maxDepth with Some d => d | None => 150%nat end) with
  | None => path_error
  | Some None => path_result false [] 0 0
  | Some (Some p) => path_result true p (length p) (calculatePathConfidence p)
  end.

(** Replaying a move list with [applyMoveToState]. *)
Fixpoint replay (gs : GameState) (ms : list Move) : option GameState :=
  match ms with
  | [] => Some gs
  | m :: ms' => match applyMoveToState gs m with
                | Some ns => replay ns ms'
                | None => None
                end
  end.

(** [rankMovesByPriority(moves, state)]: [moves.sort] by descending
    [priority], in place. *)
Definition rankMovesByPriority (moves : list Move) : list Move :=
  sort_desc priority moves.

(** The fields [possibleMoves], [bestMove] and [stockRecommendation] of the
    object [analyzePosition] returns ([winProbability] and [timestamp] are not
    modelled). *)
Record Analysis := mkAnalysis {
  possibleMoves : list Move; bestMove : option Move;
  stockRecommendation : StockAnalysis
}.

(** [analyzePosition(gameState)]: [None] is the [{ error }] object of the
    [catch]. [rankMovesByPriority] sorts the array [possibleMoves] in place,
    so the returned [possibleMoves] is the sorted array. *)
Definition analyzePosition (stack : nat) (gs : GameState) : option Analysis :=
  let state := cloneGameState gs in
  match generateAllPossibleMoves stack state with
  | None => None
  | Some pm =>
      match analyzeStock_with (generateAllPossibleMoves stack) state with
      | None => None
      | Some sa =>
          let sorted := rankMovesByPriority pm in
          Some (mkAnalysis sorted (match sorted with [] => None | b :: _ => Some b end) sa)
      end
  end.

End AI.

(** ** Concrete states used by the witnesses and counterexamples *)

(** The foundation pile of suit [s] holding Ace .. [n], face up. *)
Definition run (s : Suit) (n : nat) : list Card :=
  map (fun k => mkCard s (Z.of_nat k) true) (seq 1 n).

Definition empty_foundations : list (Suit * list Card) :=
  [(Spade, []); (Heart, []); (Diamond, []); (Club, [])].

(** The spec's one-move-from-winning scenario: the King of Spades face up
    on column 0, the Spades foundation holding Ace .. Queen. *)
Definition ex_one_move : GameState :=
  mkState [[mkCard Spade 13 true]; []; []; []; []; []; []]
    [(Spade, run Spade 12); (Heart, run Heart 13); (Diamond, run Diamond 13);
     (Club, run Club 13)] [] [] (Some 3%nat).

(** Column 0 holds King of Spades then Queen of Hearts, both face up. *)
Definition ex_king_queen : GameState :=
  mkState [[mkCard Spade 13 true; mkCard Heart 12 true]; []; []; []; []; []; []]
    empty_foundations [] [] (Some 3%nat).

(** Column 0 holds the Ace of Hearts, face up; stock and waste are empty. *)
Definition ex_ace_hearts : GameState :=
  mkState [[mkCard Heart 1 true]; []; []; []; []; []; []]
    empty_foundations [] [] (Some 3%nat).

(** A face-down card in the stock, drawing three at a time. *)
Definition ex_stock_one : GameState :=
  mkState [[]; []; []; []; []; []; []] empty_foundations
    [mkCard Club 5 false] [] (Some 3%nat).

(** Three face-down cards in the stock, drawing three at a time. *)
Definition ex_stock_three : GameState :=
  mkState [[]; []; []; []; []; []; []] empty_foundations
    [mkCard Club 5 false; mkCard Heart 9 false; mkCard Spade 2 false] []
    (Some 3%nat).

(** An empty stock and one face-up card in the waste. *)
Definition ex_waste_one : GameState :=
  mkState [[]; []; []; []; []; []; []] empty_foundations
    [] [mkCard Club 5 true] (Some 3%nat).

(** A malformed state: fifty-two copies of the Ace of Spades on the Spades
    foundation. *)
Definition ex_duplicates : GameState :=
  mkState [[]; []; []; []; []; []; []]
    [(Spade, repeat (mkCard Spade 1 true) 52); (Heart, []); (Diamond, []); (Club, [])]
    [] [] (Some 3%nat).

(** A malformed state holding no card at all. *)
Definition ex_no_cards : GameState :=
  mkState [[]; []; []; []; []; []; []] empty_foundations [] [] (Some 3%nat).

(** The 52 card identities. *)
Definition full_deck : list (Suit * Z) :=
  flat_map (fun s => map (fun k => (s, Z.of_nat k)) (seq 1 13))
    [Spade; Heart; Diamond; Club].

(** Decidable equality of card identities. *)
Definition id_eq_dec (x y : Suit * Z) : {x = y} + {x <> y}.
Proof. decide equality; [apply Z.eq_dec | apply Suit_eq_dec]. Defined.

(** The states reachable from [gs] by applying moves one after the other
    with the apply function [apply] of one of the workers. *)
Inductive reachable_by {M : Type} (apply : GameState -> M -> option GameState)
  (gs : GameState) : GameState -> Prop :=
| reach_refl : reachable_by apply gs gs
| reach_step gs1 m gs2 :
    reachable_by apply gs gs1 -> apply gs1 m = Some gs2 -> reachable_by apply gs gs2.

(** A deal: the whole deck face down in the stock. *)
Definition ex_deal : GameState :=
  mkState [[]; []; []; []; []; []; []] empty_foundations
    (map (fun sv => mkCard (fst sv) (snd sv) false) full_deck) [] (Some 3%nat).

(** * Properties of the solver worker *)
Module SolverProps.
Import Solver.

(** ** The search loop *)

Lemma search_loop_true rec gs sq h ms env bm env' :
  search_loop rec gs sq h ms env = (Some (true, bm), env') ->
  exists m ns env0 env1,
    In m ms /\ applyMove gs m = Some ns /\
    rec ns (sq ++ [m]) env0 = (Some (true, bm), env1).
Proof.
  revert env; induction ms as [|m ms IH]; intros env H; simpl in H.
  - discriminate.
  - destruct (applyMove gs m) as [ns|] eqn:Ha.
    + destruct (rec ns (sq ++ [m]) env) as [[[b l]|] e] eqn:Hr; try discriminate.
      destruct b.
      * inversion H; subst. do 4 eexists. split; [left; reflexivity|]. split; [exact Ha|]. exact Hr.
      * destruct (IH _ H) as (m' & ns' & e0 & e1 & Hin & Ha' & Hr').
        exists m', ns', e0, e1. split; [right; exact Hin|]. auto.
    + destruct (IH _ H) as (m' & ns' & e0 & e1 & Hin & Ha' & Hr').
      exists m', ns', e0, e1. split; [right; exact Hin|]. auto.
Qed.

Lemma search_loop_false rec gs sq h ms env b env'
  (Hrec : forall ns s e b' e', rec ns s e = (Some (false, b'), e') ->
          visited e' = visited e) :
  search_loop rec gs sq h ms env = (Some (false, b), env') ->
  visited env' = set_delete h (visited env).
Proof.
  revert env; induction ms as [|m ms IH]; intros env H; simpl in H.
  - inversion H; subst; reflexivity.
  - destruct (applyMove gs m) as [ns|] eqn:Ha.
    + destruct (rec ns (sq ++ [m]) env) as [[[b' l]|] e] eqn:Hr; try discriminate.
      destruct b'; try discriminate.
      rewrite (IH _ H). rewrite (Hrec _ _ _ _ _ Hr). reflexivity.
    + apply IH; exact H.
Qed.

Lemma set_delete_add h v :
  set_has h v = false -> set_delete h (set_add h v) = v.
Proof.
  unfold set_delete, set_add; intros Hn; rewrite Hn.
  unfold set_has in Hn; destruct (in_dec HashKey_eq_dec h v) as [_|Hni]; [discriminate|].
  rewrite remove_app; simpl.
  destruct (HashKey_eq_dec h h) as [_|C]; [|contradiction].
  rewrite app_nil_r. apply notin_remove; exact Hni.
Qed.

Ltac search_cases H :=
  simpl in H;
  repeat match type of H with
  | context [if ?c then _ else _] => let E := fresh "E" in destruct c eqn:E
  | context [match generateAllMoves ?g with _ => _ end] =>
      let E := fresh "Eg" in destruct (generateAllMoves g) eqn:E
  end.

(** ** Soundness of the search *)

Lemma search_sound_gen now mT sT r : forall gs sq env bm env',
  search now mT sT r gs sq env = (Some (true, bm), env') ->
  exists suffix gs', bm = sq ++ suffix /\ replay gs suffix = Some gs' /\
                     isGameWon gs' = true.
Proof.
  induction r as [|r IH]; intros gs sq env bm env' H.
  - simpl in H; destruct (mT <? _); discriminate.
  - search_cases H; try discriminate.
    + inversion H; subst. exists [], gs. rewrite app_nil_r. auto.
    + destruct (search_loop_true _ _ _ _ _ _ _ _ H)
        as (m & ns & e0 & e1 & _ & Ha & Hr).
      destruct (IH _ _ _ _ _ Hr) as (suffix & gs' & Hbm & Hrep & Hw).
      exists (m :: suffix), gs'. rewrite <- app_assoc in Hbm. simpl.
      rewrite Ha. auto.
Qed.

(** ** Restoring the visited set *)

Lemma search_restores now mT sT r : forall gs sq env b env',
  search now mT sT r gs sq env = (Some (false, b), env') ->
  visited env' = visited env.
Proof.
  induction r as [|r IH]; intros gs sq env b env' H.
  - simpl in H; destruct (mT <? _); inversion H; reflexivity.
  - search_cases H; try (inversion H; reflexivity); try discriminate.
    rewrite (search_loop_false _ _ _ _ _ _ _ _ (IH) H). simpl.
    apply set_delete_add; assumption.
Qed.

Lemma search_seen now mT sT r gs sq env :
  In (hashGameState gs) (visited env) -> isGameWon gs = false ->
  search now mT sT r gs sq env = (Some (false, []), mkEnv (visited env) (S (tick env))).
Proof.
  intros Hin Hw. destruct r; simpl; destruct (mT <? _); try reflexivity.
  rewrite Hw. unfold set_has. destruct (in_dec HashKey_eq_dec _ _); [reflexivity|contradiction].
Qed.

(** ** Independence from the clock while within the time budget *)

Lemma search_loop_rel rec1 rec2 gs sq h (b1 b2 : nat)
  (Hrec : forall ns s V t1 t2, (b1 <= t1)%nat -> (b2 <= t2)%nat ->
     fst (rec1 ns s (mkEnv V t1)) = fst (rec2 ns s (mkEnv V t2)) /\
     visited (snd (rec1 ns s (mkEnv V t1))) = visited (snd (rec2 ns s (mkEnv V t2))) /\
     (t1 <= tick (snd (rec1 ns s (mkEnv V t1))))%nat /\
     (t2 <= tick (snd (rec2 ns s (mkEnv V t2))))%nat) :
  forall ms V t1 t2, (b1 <= t1)%nat -> (b2 <= t2)%nat ->
     fst (search_loop rec1 gs sq h ms (mkEnv V t1))
       = fst (search_loop rec2 gs sq h ms (mkEnv V t2)) /\
     visited (snd (search_loop rec1 gs sq h ms (mkEnv V t1)))
       = visited (snd (search_loop rec2 gs sq h ms (mkEnv V t2))) /\
     (t1 <= tick (snd (search_loop rec1 gs sq h ms (mkEnv V t1))))%nat /\
     (t2 <= tick (snd (search_loop rec2 gs sq h ms (mkEnv V t2))))%nat.
Proof.
  induction ms as [|m ms IH]; intros V t1 t2 H1 H2; simpl.
  - repeat split; lia.
  - destruct (applyMove gs m) as [ns|]; [|apply IH; assumption].
    destruct (Hrec ns (sq ++ [m]) V t1 t2 H1 H2) as (Hr & Hv & Ht1 & Ht2).
    destruct (rec1 ns (sq ++ [m]) (mkEnv V t1)) as [r1 [V1 u1]].
    destruct (rec2 ns (sq ++ [m]) (mkEnv V t2)) as [r2 [V2 u2]].
    simpl in *; subst r2 V2.
    destruct r1 as [[[|] bm]|]; simpl; try (repeat split; lia).
    destruct (IH V1 u1 u2 ltac:(lia) ltac:(lia)) as (A & B & C & D).
    repeat split; try assumption; lia.
Qed.

Lemma search_clock_indep now1 now2 mT sT1 sT2 r : forall gs sq V t1 t2,
  (forall k, (t1 <= k)%nat -> now1 k - sT1 <= mT) ->
  (forall k, (t2 <= k)%nat -> now2 k - sT2 <= mT) ->
  fst (search now1 mT sT1 r gs sq (mkEnv V t1))
    = fst (search now2 mT sT2 r gs sq (mkEnv V t2)) /\
  visited (snd (search now1 mT sT1 r gs sq (mkEnv V t1)))
    = visited (snd (search now2 mT sT2 r gs sq (mkEnv V t2))) /\
  (t1 <= tick (snd (search now1 mT sT1 r gs sq (mkEnv V t1))))%nat /\
  (t2 <= tick (snd (search now2 mT sT2 r gs sq (mkEnv V t2))))%nat.
Proof.
  induction r as [|r IH]; intros gs sq V t1 t2 H1 H2; simpl.
  - assert (E1 : (mT <? now1 t1 - sT1) = false) by (apply Z.ltb_ge, H1; lia).
    assert (E2 : (mT <? now2 t2 - sT2) = false) by (apply Z.ltb_ge, H2; lia).
    rewrite E1, E2; simpl; repeat split; lia.
  - assert (E1 : (mT <? now1 t1 - sT1) = false) by (apply Z.ltb_ge, H1; lia).
    assert (E2 : (mT <? now2 t2 - sT2) = false) by (apply Z.ltb_ge, H2; lia).
    rewrite E1, E2.
    destruct (isGameWon gs); [simpl; repeat split; lia|].
    destruct (set_has (hashGameState gs) V); [simpl; repeat split; lia|].
    destruct (generateAllMoves gs) as [pm|]; [|simpl; repeat split; lia].
    destruct (search_loop_rel (search now1 mT sT1 r) (search now2 mT sT2 r) gs sq
                (hashGameState gs) (S t1) (S t2))
      with (ms := rankMoves pm gs) (V := set_add (hashGameState gs) V)
           (t1 := S t1) (t2 := S t2) as (A & B & C & D); try lia.
    + intros ns s V' u1 u2 Hu1 Hu2.
      apply IH; intros k Hk; [apply H1|apply H2]; lia.
    + repeat split; try assumption; lia.
Qed.

(** ** Exceptions *)

Lemma collect_some {A} (f : nat -> option (list A)) l :
  (forall i, In i l -> f i <> None) -> collect f l <> None.
Proof.
  induction l as [|a l IH]; simpl; intros H; [discriminate|].
  destruct (f a) eqn:E.
  - destruct (collect f l) eqn:E2; [discriminate|].
    exfalso; exact (IH (fun i Hi => H i (or_intror Hi)) eq_refl).
  - exfalso; exact (H a (or_introl eq_refl) E).
Qed.

Lemma nth_cols (t : list (list Card)) i :
  (7 <= length t)%nat -> In i cols -> nth_error t i <> None.
Proof.
  unfold cols; intros Hl Hi; apply in_seq in Hi.
  rewrite nth_error_None; lia.
Qed.

Lemma generateAllMoves_some gs :
  (7 <= length (tableau gs))%nat -> generateAllMoves gs <> None.
Proof.
  intros Hl; unfold generateAllMoves.
  assert (A : gen_waste_to_tableau gs <> None).
  { unfold gen_waste_to_tableau; destruct (top (waste gs)); [|discriminate].
    apply collect_some; intros i Hi; pose proof (nth_cols _ i Hl Hi).
    destruct (nth_error (tableau gs) i); [discriminate|contradiction]. }
  assert (B : gen_tableau_to_foundation gs <> None).
  { apply collect_some; intros i Hi; pose proof (nth_cols _ i Hl Hi).
    destruct (nth_error (tableau gs) i); [discriminate|contradiction]. }
  assert (C : gen_tableau_to_tableau gs <> None).
  { apply collect_some; intros i Hi; pose proof (nth_cols _ i Hl Hi).
    destruct (nth_error (tableau gs) i) as [[|c p]|]; [discriminate| |contradiction].
    apply collect_some; intros n _.
    destruct (faceUpCards (c :: p)); [discriminate|].
    apply collect_some; intros j Hj.
    destruct (Nat.eqb i j); [discriminate|].
    pose proof (nth_cols _ j Hl Hj).
    destruct (nth_error (tableau gs) j); [discriminate|contradiction]. }
  destruct (gen_waste_to_tableau gs); [|contradiction].
  destruct (gen_tableau_to_foundation gs); [|contradiction].
  destruct (gen_tableau_to_tableau gs); [discriminate|contradiction].
Qed.

Lemma set_nth_length {A} (l : list A) i x : length (set_nth l i x) = length l.
Proof.
  revert i; induction l as [|y l IH]; intros [|i]; simpl; auto.
Qed.

Lemma tab_set_length t l p : length (tab_set t l p) = length t.
Proof. destruct l; simpl; auto using set_nth_length. Qed.

Lemma applyMove_tableau_length gs m gs' :
  applyMove gs m = Some gs' -> length (tableau gs') = length (tableau gs).
Proof.
  unfold applyMove, cloneGameState; simpl.
  destruct (mtype m); intros H;
  repeat match type of H with
  | context [match ?x with _ => _ end] => destruct x eqn:?
  end;
  inversion H; subst; simpl; repeat rewrite tab_set_length; reflexivity.
Qed.

(** ** Claims *)

(** C1. Search soundness: whenever [solve] reports [solvable = true],
    replaying the returned [bestMoves] from the input state with [applyMove]
    succeeds at every step and ends in a state where [isGameWon] holds (52
    cards on the foundations). This holds for every clock, solver state,
    input state and depth bound. *)
Theorem solve_sound now env gs md :
  solvable (fst (solve now env gs md)) = true ->
  exists gs', replay gs (bestMoves (fst (solve now env gs md))) = Some gs' /\
              isGameWon gs' = true.
Proof.
  unfold solve.
  destruct (search now maxTime (now (tick env))
              match md with Some d => d | None => 200%nat end gs []
              (mkEnv [] (S (tick env)))) as [[[[|] bm]|] e] eqn:E;
    simpl; intros H; try discriminate.
  destruct (search_sound_gen _ _ _ _ _ _ _ _ _ E) as (suffix & gs' & -> & Hr & Hw).
  exists gs'; auto.
Qed.

Lemma solve_sound_witness :
  solvable (fst (solve (fun _ => 0) (mkEnv [] 0) ex_one_move None)) = true /\
  exists gs', replay ex_one_move
                (bestMoves (fst (solve (fun _ => 0) (mkEnv [] 0) ex_one_move None)))
              = Some gs' /\ isGameWon gs' = true.
Proof.
  split; [vm_compute; reflexivity|].
  apply (solve_sound (fun _ => 0) (mkEnv [] 0) ex_one_move None).
  vm_compute; reflexivity.
Defined.

(** C6. Visited-set discipline: a [search] call that returns a non-solvable
    result leaves [visitedStates] exactly as it found it (its own hash, added
    before the recursion, is deleted again, and every failing recursive call
    restores the set), and a call on a non-won state whose hash is already in
    the set fails at once without touching the set. *)
Theorem visited_discipline now mT sT :
  (forall r gs sq env b env',
     search now mT sT r gs sq env = (Some (false, b), env') ->
     visited env' = visited env) /\
  (forall r gs sq env,
     In (hashGameState gs) (visited env) -> isGameWon gs = false ->
     search now mT sT r gs sq env
       = (Some (false, []), mkEnv (visited env) (S (tick env)))).
Proof.
  split.
  - intros r; apply search_restores.
  - intros; apply search_seen; assumption.
Qed.

Lemma visited_discipline_witness :
  In (hashGameState ex_king_queen) [hashGameState ex_king_queen] /\
  isGameWon ex_king_queen = false /\
  search (fun _ => 0) maxTime 0 5 ex_king_queen []
         (mkEnv [hashGameState ex_king_queen] 0)
    = (Some (false, []), mkEnv [hashGameState ex_king_queen] 1).
Proof.
  split; [left; reflexivity|]. split; [reflexivity|].
  apply (proj2 (visited_discipline (fun _ => 0) maxTime 0)); [left; reflexivity|reflexivity].
Defined.

(** C10. No cross-call state bleed: [solve] clears [visitedStates] on entry,
    so two runs on the same input state and [maxDepth], each with every clock
    reading within [maxTime] of its start, return the same result whatever
    the visited sets left by earlier calls and whatever the clocks read. *)
Theorem solve_no_state_bleed now1 now2 V1 V2 t1 t2 gs md :
  (forall k, (t1 <= k)%nat -> now1 k - now1 t1 <= maxTime) ->
  (forall k, (t2 <= k)%nat -> now2 k - now2 t2 <= maxTime) ->
  fst (solve now1 (mkEnv V1 t1) gs md) = fst (solve now2 (mkEnv V2 t2) gs md).
Proof.
  intros H1 H2; unfold solve; simpl.
  set (d := match md with Some d => d | None => 200%nat end).
  destruct (search_clock_indep now1 now2 maxTime (now1 t1) (now2 t2) d gs [] []
              (S t1) (S t2)) as (A & _ & _ & _);
    [intros k Hk; apply H1; lia | intros k Hk; apply H2; lia |].
  destruct (search now1 maxTime (now1 t1) d gs [] (mkEnv [] (S t1))) as [r1 e1].
  destruct (search now2 maxTime (now2 t2) d gs [] (mkEnv [] (S t2))) as [r2 e2].
  simpl in A; subst r2. destruct r1 as [[[|] ?]|]; reflexivity.
Qed.

Lemma solve_no_state_bleed_witness :
  fst (solve (fun _ => 0) (mkEnv [hashGameState ex_one_move] 7) ex_one_move None)
  = fst (solve (fun _ => 5) (mkEnv [] 0) ex_one_move None).
Proof.
  apply solve_no_state_bleed; intros k Hk; unfold maxTime; lia.
Defined.

(** C8 (amended). [solve] performs no validation of its input: every
    state with 52 cards on its foundations, duplicated or not, is reported
    solvable in 0 moves, with no error, when [maxDepth] is not 0 and the
    time budget is not exceeded. *)
Theorem solve_no_validation now env gs md :
  foundation_count (foundations gs) = 52%nat -> md <> Some 0%nat ->
  now (S (tick env)) - now (tick env) <= maxTime ->
  fst (solve now env gs md) = mkResult true [] 0 None.
Proof.
  intros Hc Hmd Ht; unfold solve.
  destruct md as [[|d]|]; [contradiction| |]; simpl;
    assert (E : (maxTime <? now (S (tick env)) - now (tick env)) = false)
      by (apply Z.ltb_ge; exact Ht);
    rewrite E; unfold isGameWon; rewrite Hc; reflexivity.
Qed.

Lemma solve_no_validation_witness :
  foundation_count (foundations ex_duplicates) = 52%nat /\
  fst (solve (fun _ => 0) (mkEnv [] 0) ex_duplicates None) = mkResult true [] 0 None.
Proof.
  split; [reflexivity|].
  apply (solve_no_validation (fun _ => 0) (mkEnv [] 0) ex_duplicates None);
    [reflexivity|discriminate|unfold maxTime; lia].
Defined.

(** C8 counterexample: the state holding 52 copies of the Ace of Spades
    (52 cards, but one card 52 times) is not rejected: [solve] reports it
    solvable in 0 moves with no error; the state holding no card at all is
    searched and reported unsolvable, again with no error. *)
Lemma solve_malformed_not_rejected :
  state_cards ex_duplicates = repeat (Spade, 1) 52 /\
  fst (solve (fun _ => 0) (mkEnv [] 0) ex_duplicates None) = mkResult true [] 0 None /\
  state_cards ex_no_cards = [] /\
  fst (solve (fun _ => 0) (mkEnv [] 0) ex_no_cards None) = mkResult false [] (-1) None.
Proof. vm_compute. repeat split. Qed.

End SolverProps.

(** * Deck integrity *)
Module DeckProps.

Abbreviation cnt l x := (count_occ id_eq_dec l x).

Lemma top_split p c : top p = Some c -> p = removelast p ++ [c].
Proof.
  unfold top. destruct (rev p) as [|c' r] eqn:E; intros H; inversion H; subst c'.
  assert (Hp : p = rev r ++ [c]) by (rewrite <- (rev_involutive p), E; reflexivity).
  rewrite Hp at 1 2. rewrite removelast_last. reflexivity.
Qed.

Lemma ids_flip_top p : map card_id (flip_top p) = map card_id p.
Proof.
  unfold flip_top. destruct (top p) as [c|] eqn:E; [|reflexivity].
  destruct (faceUp c); [reflexivity|].
  rewrite (top_split p c E) at 2. rewrite !map_app. reflexivity.
Qed.

Lemma cnt_flip_top p x : cnt (map card_id (flip_top p)) x = cnt (map card_id p) x.
Proof. rewrite ids_flip_top. reflexivity. Qed.

Lemma cnt_top p c x :
  top p = Some c ->
  cnt (map card_id p) x = (cnt (map card_id (removelast p)) x + cnt (map card_id [c]) x)%nat.
Proof.
  intros H. rewrite (top_split p c H) at 1. rewrite map_app, count_occ_app. reflexivity.
Qed.

Lemma cnt_firstn_skipn (k : nat) p x :
  cnt (map card_id p) x
  = (cnt (map card_id (firstn k p)) x + cnt (map card_id (skipn k p)) x)%nat.
Proof. rewrite <- count_occ_app, <- map_app, firstn_skipn. reflexivity. Qed.

Lemma cnt_set_nth (t : list (list Card)) n p q x :
  nth_error t n = Some p ->
  (cnt (map card_id (concat (set_nth t n q))) x + cnt (map card_id p) x
   = cnt (map card_id (concat t)) x + cnt (map card_id q) x)%nat.
Proof.
  revert n; induction t as [|a t IH]; intros [|n] H; simpl in H; try discriminate.
  - injection H as <-. simpl. rewrite !map_app, !count_occ_app. lia.
  - simpl. rewrite !map_app, !count_occ_app. specialize (IH n H). lia.
Qed.

Lemma cnt_tab_set t l p q x :
  tab_at t l = Some p ->
  (cnt (map card_id (concat (tab_set t l q))) x + cnt (map card_id p) x
   = cnt (map card_id (concat t)) x + cnt (map card_id q) x)%nat.
Proof. destruct l; simpl; try discriminate. apply cnt_set_nth. Qed.

Lemma cnt_update_suit fs s p q x :
  lookup_suit fs s = Some p ->
  (cnt (map card_id (concat (map snd (update_suit fs s q)))) x + cnt (map card_id p) x
   = cnt (map card_id (concat (map snd fs))) x + cnt (map card_id q) x)%nat.
Proof.
  induction fs as [|[k r] fs IH]; simpl; [discriminate|].
  destruct (suit_eqb k s); intros H.
  - injection H as <-. simpl. rewrite !map_app, !count_occ_app. lia.
  - simpl. rewrite !map_app, !count_occ_app. specialize (IH H). lia.
Qed.

Lemma cnt_fnd_set fs l p q x :
  fnd_at fs l = Some p ->
  (cnt (map card_id (concat (map snd (fnd_set fs l q)))) x + cnt (map card_id p) x
   = cnt (map card_id (concat (map snd fs))) x + cnt (map card_id q) x)%nat.
Proof. destruct l; simpl; try discriminate. apply cnt_update_suit. Qed.

Ltac cnt_close :=
  unfold state_cards; cbn [tableau foundations stock waste];
  rewrite ?map_app, ?count_occ_app in *; lia.

(** The solver's [applyMove] neither loses nor duplicates a card, whatever
    the move. *)
Lemma applyMove_cards gs m gs' :
  Solver.applyMove gs m = Some gs' -> Permutation (state_cards gs) (state_cards gs').
Proof.
  intros H. apply (Permutation_count_occ id_eq_dec). intros x.
  destruct gs as [t fs st w dm].
  unfold Solver.applyMove, Solver.cloneGameState in H.
  cbn [tableau foundations stock waste drawMode] in H.
  destruct (Solver.mtype m).
  - destruct (top st) as [c|] eqn:E; injection H as <-; [|reflexivity].
    pose proof (cnt_top _ _ x E). cnt_close.
  - destruct (top w) as [c|] eqn:E; [|injection H as <-; reflexivity].
    destruct (fnd_at fs (Solver.mto m)) as [fp|] eqn:F; [|discriminate].
    injection H as <-.
    pose proof (cnt_top _ _ x E). pose proof (cnt_fnd_set _ _ _ (fp ++ [c]) x F).
    cnt_close.
  - destruct (top w) as [c|] eqn:E; [|injection H as <-; reflexivity].
    destruct (tab_at t (Solver.mto m)) as [tp|] eqn:F; [|discriminate].
    injection H as <-.
    pose proof (cnt_top _ _ x E). pose proof (cnt_tab_set _ _ _ (tp ++ [c]) x F).
    cnt_close.
  - destruct (tab_at t (Solver.mfrom m)) as [fp0|] eqn:F0; [|discriminate].
    destruct (top fp0) as [c|] eqn:E; [|injection H as <-; reflexivity].
    destruct (fnd_at fs (Solver.mto m)) as [fp|] eqn:F; [|discriminate].
    injection H as <-.
    pose proof (cnt_top _ _ x E). pose proof (cnt_fnd_set _ _ _ (fp ++ [c]) x F).
    pose proof (cnt_tab_set _ _ _ (flip_top (removelast fp0)) x F0).
    pose proof (cnt_flip_top (removelast fp0) x).
    cnt_close.
  - set (seqLen := match Solver.sequenceLength m with Some (S k) => S k | _ => 1%nat end)
      in H.
    destruct (tab_at t (Solver.mfrom m)) as [sp0|] eqn:F0; [|discriminate].
    destruct (seqLen <=? length sp0)%nat; [|injection H as <-; reflexivity].
    set (keep := (length sp0 - seqLen)%nat) in H.
    set (t1 := tab_set t (Solver.mfrom m) (firstn keep sp0)) in H.
    destruct (tab_at t1 (Solver.mto m)) as [tp|] eqn:F1; [|discriminate].
    set (t2 := tab_set t1 (Solver.mto m) (tp ++ skipn keep sp0)) in H.
    destruct (tab_at t2 (Solver.mfrom m)) as [sp|] eqn:F2; [|discriminate].
    injection H as <-.
    pose proof (cnt_tab_set _ _ _ (firstn keep sp0) x F0).
    pose proof (cnt_tab_set _ _ _ (tp ++ skipn keep sp0) x F1).
    pose proof (cnt_tab_set _ _ _ (flip_top sp) x F2).
    pose proof (cnt_flip_top sp x). pose proof (cnt_firstn_skipn keep sp0 x).
    subst t1 t2. cnt_close.
Qed.

(** The AI worker's [applyMoveToState] neither loses nor duplicates a card,
    whatever the move. *)
Lemma applyMoveToState_cards gs m gs' :
  AI.applyMoveToState gs m = Some gs' -> Permutation (state_cards gs) (state_cards gs').
Proof.
  intros H. apply (Permutation_count_occ id_eq_dec). intros x.
  destruct gs as [t fs st w dm].
  unfold AI.applyMoveToState, AI.cloneGameState in H.
  cbn [tableau foundations stock waste drawMode] in H.
  destruct (AI.mtype m).
  - destruct (tab_at t (AI.mfrom m)) as [fp0|] eqn:F0; [|injection H as <-; reflexivity].
    destruct (fnd_at fs (AI.mto m)) as [fp|] eqn:F; [|injection H as <-; reflexivity].
    destruct (top fp0) as [c|] eqn:E; [|discriminate].
    injection H as <-.
    pose proof (cnt_top _ _ x E). pose proof (cnt_fnd_set _ _ _ (fp ++ [c]) x F).
    pose proof (cnt_tab_set _ _ _ (flip_top (removelast fp0)) x F0).
    pose proof (cnt_flip_top (removelast fp0) x).
    cnt_close.
  - destruct (fnd_at fs (AI.mto m)) as [fp|] eqn:F; [|injection H as <-; reflexivity].
    destruct (top w) as [c|] eqn:E; [|discriminate].
    injection H as <-.
    pose proof (cnt_top _ _ x E). pose proof (cnt_fnd_set _ _ _ (fp ++ [c]) x F).
    cnt_close.
  - destruct (tab_at t (AI.mfrom m)) as [fp0|] eqn:F0; [|injection H as <-; reflexivity].
    set (t1 := tab_set t (AI.mfrom m) (removelast fp0)) in H.
    destruct (tab_at t1 (AI.mto m)) as [tp|] eqn:F1; [|injection H as <-; reflexivity].
    destruct (top fp0) as [c|] eqn:E; [|discriminate].
    set (t2 := tab_set t1 (AI.mto m) (tp ++ [c])) in H.
    destruct (tab_at t2 (AI.mfrom m)) as [sp|] eqn:F2; [|injection H as <-; reflexivity].
    injection H as <-.
    pose proof (cnt_top _ _ x E).
    pose proof (cnt_tab_set _ _ _ (removelast fp0) x F0).
    pose proof (cnt_tab_set _ _ _ (tp ++ [c]) x F1).
    pose proof (cnt_tab_set _ _ _ (flip_top sp) x F2).
    pose proof (cnt_flip_top sp x).
    subst t1 t2. cnt_close.
  - destruct st as [|c0 st0].
    + destruct w as [|c1 w1]; injection H as <-; [reflexivity|].
      unfold state_cards; cbn [tableau foundations stock waste].
      pose proof (count_occ_rev id_eq_dec (map card_id (c1 :: w1)) x) as R.
      rewrite <- map_rev in R. cbn [rev] in R. rewrite !map_app, !count_occ_app in *.
      lia.
    + injection H as <-.
      unfold state_cards; cbn [tableau foundations stock waste].
      match goal with
      | |- context [firstn ?k (c0 :: st0)] =>
          pose proof (cnt_firstn_skipn k (c0 :: st0) x)
      end.
      cnt_close.
Qed.

Lemma reachable_cards {M} (ap : GameState -> M -> option GameState) :
  (forall gs m gs', ap gs m = Some gs' -> Permutation (state_cards gs) (state_cards gs')) ->
  forall gs0 gs, reachable_by ap gs0 gs -> Permutation (state_cards gs0) (state_cards gs).
Proof.
  intros Hap gs0 gs Hr. induction Hr as [|gs1 m gs2 _ IH Ha].
  - apply Permutation_refl.
  - eapply Permutation_trans; [exact IH | exact (Hap _ _ _ Ha)].
Qed.

Lemma full_deck_nodup : NoDup full_deck.
Proof.
  unfold full_deck; simpl. repeat constructor; simpl; intuition discriminate.
Qed.

(** C2. Deck integrity: applying any move, generated or not, with the
    solver's [applyMove] or with the AI worker's [applyMoveToState] gives a
    state holding the same multiset of cards (identified by suit and value)
    as the state it started from; hence every state reachable with either
    function from a state holding the 52 distinct cards of the deck once each
    holds them once each too. *)
Theorem deck_integrity :
  (forall gs m gs', Solver.applyMove gs m = Some gs' ->
     Permutation (state_cards gs) (state_cards gs')) /\
  (forall gs m gs', AI.applyMoveToState gs m = Some gs' ->
     Permutation (state_cards gs) (state_cards gs')) /\
  (forall gs0 gs, Permutation (state_cards gs0) full_deck ->
     reachable_by Solver.applyMove gs0 gs ->
     Permutation (state_cards gs) full_deck /\ NoDup (state_cards gs)) /\
  (forall gs0 gs, Permutation (state_cards gs0) full_deck ->
     reachable_by AI.applyMoveToState gs0 gs ->
     Permutation (state_cards gs) full_deck /\ NoDup (state_cards gs)).
Proof.
  assert (Hfin : forall gs0 gs, Permutation (state_cards gs0) full_deck ->
            Permutation (state_cards gs0) (state_cards gs) ->
            Permutation (state_cards gs) full_deck /\ NoDup (state_cards gs)).
  { intros gs0 gs H0 H. assert (Hp : Permutation (state_cards gs) full_deck)
      by (eapply Permutation_trans; [apply Permutation_sym; exact H | exact H0]).
    split; [exact Hp|].
    apply (Permutation_NoDup (Permutation_sym Hp)), full_deck_nodup. }
  split; [exact applyMove_cards|]. split; [exact applyMoveToState_cards|].
  split; intros gs0 gs H0 Hr; apply (Hfin gs0 gs H0).
  - exact (reachable_cards _ applyMove_cards _ _ Hr).
  - exact (reachable_cards _ applyMoveToState_cards _ _ Hr).
Qed.

Lemma deck_integrity_witness :
  Permutation (state_cards ex_deal) full_deck /\
  exists gs, Solver.applyMove ex_deal
               (Solver.mkMove Solver.stock_to_waste LStock LWaste None None) = Some gs /\
             Permutation (state_cards gs) full_deck /\ NoDup (state_cards gs).
Proof.
  assert (H0 : Permutation (state_cards ex_deal) full_deck)
    by (vm_compute; apply Permutation_refl).
  split; [exact H0|].
  eexists; split; [reflexivity|].
  apply (proj1 (proj2 (proj2 deck_integrity)) ex_deal); [exact H0|].
  apply (reach_step _ _ ex_deal
           (Solver.mkMove Solver.stock_to_waste LStock LWaste None None));
    [apply reach_refl | reflexivity].
Defined.

End DeckProps.

(** * Move ranking *)
Module SortProps.

Section SortDesc.
Context {A : Type} (key : A -> Z).

Lemma insert_by_perm m l : Permutation (m :: l) (insert_by key m l).
Proof.
  induction l as [|x l IH]; simpl; [reflexivity|].
  destruct (key m <=? key x); [|reflexivity].
  eapply perm_trans; [apply perm_swap|]. apply perm_skip, IH.
Qed.

Lemma insert_by_sorted m l :
  StronglySorted (fun a b => key b <= key a) l ->
  StronglySorted (fun a b => key b <= key a) (insert_by key m l).
Proof.
  induction l as [|x l IH]; simpl; intros H.
  - repeat constructor.
  - apply StronglySorted_inv in H as [Hl Hx].
    destruct (key m <=? key x) eqn:E.
    + apply Z.leb_le in E. constructor; [exact (IH Hl)|].
      apply Forall_forall. intros y Hy.
      apply (Permutation_in _ (Permutation_sym (insert_by_perm m l))) in Hy.
      destruct Hy as [<-|Hy]; [exact E|]. exact (proj1 (Forall_forall _ _) Hx y Hy).
    + apply Z.leb_gt in E. constructor; [constructor; assumption|].
      constructor; [cbv beta; lia|]. apply Forall_forall. intros y Hy.
      pose proof (proj1 (Forall_forall _ _) Hx y Hy). cbv beta in *. lia.
Qed.

Lemma sort_desc_perm l : Permutation l (sort_desc key l).
Proof.
  unfold sort_desc. rewrite <- (app_nil_r l) at 1. generalize (@nil A).
  induction l as [|x l IH]; intros acc; simpl; [reflexivity|].
  eapply perm_trans; [|apply IH].
  eapply perm_trans; [apply Permutation_middle|].
  apply Permutation_app_head, insert_by_perm.
Qed.

Lemma sort_desc_sorted l : StronglySorted (fun a b => key b <= key a) (sort_desc key l).
Proof.
  unfold sort_desc.
  assert (H : forall acc, StronglySorted (fun a b => key b <= key a) acc ->
            StronglySorted (fun a b => key b <= key a)
              (fold_left (fun acc m => insert_by key m acc) l acc)).
  { induction l as [|x l IH]; intros acc Hacc; simpl; [exact Hacc|].
    apply IH, insert_by_sorted, Hacc. }
  apply H. constructor.
Qed.

Lemma sort_desc_later l l1 n l2 f :
  sort_desc key l = l1 ++ n :: l2 -> In f l2 -> key f <= key n.
Proof.
  intros E Hf. pose proof (sort_desc_sorted l) as S. rewrite E in S. clear E.
  induction l1 as [|x l1 IH]; simpl in S.
  - apply StronglySorted_inv in S as [_ Hn].
    exact (proj1 (Forall_forall _ _) Hn f Hf).
  - apply StronglySorted_inv in S as [S _]. exact (IH S).
Qed.

End SortDesc.

Lemma top_in p c : top p = Some c -> In c p.
Proof.
  intros H. rewrite (DeckProps.top_split p c H).
  apply in_or_app; right; left; reflexivity.
Qed.

End SortProps.

Module SolverRank.
Import Solver SortProps.

Lemma collect_in {A} (f : nat -> option (list A)) l xs x :
  collect f l = Some xs -> In x xs -> exists i ys, In i l /\ f i = Some ys /\ In x ys.
Proof.
  revert xs; induction l as [|i l IH]; simpl; intros xs H Hx.
  - injection H as <-; contradiction.
  - destruct (f i) as [ys|] eqn:E; [|discriminate].
    destruct (collect f l) as [zs|] eqn:E2; [|discriminate].
    injection H as <-. apply in_app_or in Hx as [Hx|Hx].
    + exists i, ys; auto.
    + destruct (IH zs eq_refl Hx) as (j & ws & ? & ? & ?). exists j, ws; auto.
Qed.

Lemma tt_targets_type gs fromCol seqLen c ys m :
  tt_targets gs fromCol seqLen c = Some ys -> In m ys -> mtype m = tableau_to_tableau.
Proof.
  intros H Hin. destruct (collect_in _ _ _ _ H Hin) as (i & zs & _ & Hf & Hz).
  destruct (Nat.eqb fromCol i); [injection Hf as <-; contradiction|].
  destruct (nth_error (tableau gs) i); [|discriminate].
  injection Hf as <-. destruct (canPlaceOnTableau c l); [|contradiction].
  destruct Hz as [<-|[]]; reflexivity.
Qed.

Lemma gen_found_card gs ms m :
  generateAllMoves gs = Some ms -> In m ms -> is_foundation_move m = true ->
  exists c, mcard m = Some c /\ In c (waste gs ++ concat (tableau gs)).
Proof.
  unfold generateAllMoves.
  destruct (gen_waste_to_tableau gs) as [wt|] eqn:E1; [|discriminate].
  destruct (gen_tableau_to_foundation gs) as [tf|] eqn:E2; [|discriminate].
  destruct (gen_tableau_to_tableau gs) as [tabtab|] eqn:E3; [|discriminate].
  intros H; injection H as <-. intros Hin Hf.
  repeat (apply in_app_or in Hin as [Hin|Hin]).
  - unfold gen_stock_to_waste in Hin. destruct (stock gs); [contradiction|].
    destruct Hin as [<-|[]]; discriminate.
  - unfold gen_waste_to_foundation in Hin.
    destruct (top (waste gs)) as [wc|] eqn:T; [|contradiction].
    destruct (canPlaceOnFoundation wc (foundations gs)); [|contradiction].
    destruct Hin as [<-|[]]. exists wc; split; [reflexivity|].
    apply in_or_app; left; apply top_in; exact T.
  - unfold gen_waste_to_tableau in E1.
    destruct (top (waste gs)) as [wc|]; [|injection E1 as <-; contradiction].
    destruct (collect_in _ _ _ _ E1 Hin) as (i & ys & _ & Hf' & Hy).
    destruct (nth_error (tableau gs) i); [|discriminate].
    injection Hf' as <-. destruct (canPlaceOnTableau wc l); [|contradiction].
    destruct Hy as [<-|[]]; discriminate.
  - unfold gen_tableau_to_foundation in E2.
    destruct (collect_in _ _ _ _ E2 Hin) as (i & ys & _ & Hf' & Hy).
    destruct (nth_error (tableau gs) i) as [p|] eqn:N; [|discriminate].
    injection Hf' as <-. destruct (top p) as [tc|] eqn:T; [|contradiction].
    destruct (faceUp tc && canPlaceOnFoundation tc (foundations gs)); [|contradiction].
    destruct Hy as [<-|[]]. exists tc; split; [reflexivity|].
    apply in_or_app; right. apply in_concat. exists p; split;
      [eapply nth_error_In; exact N | apply top_in; exact T].
  - unfold gen_tableau_to_tableau in E3.
    destruct (collect_in _ _ _ _ E3 Hin) as (i & ys & _ & Hf' & Hy).
    destruct (nth_error (tableau gs) i) as [[|c0 p]|]; [injection Hf' as <-; contradiction| |discriminate].
    destruct (collect_in _ _ _ _ Hf' Hy) as (k & zs & _ & Hk & Hz).
    destruct (faceUpCards (c0 :: p)) as [|c1 fu]; [injection Hk as <-; contradiction|].
    unfold is_foundation_move in Hf. rewrite (tt_targets_type _ _ _ _ _ _ Hk Hz) in Hf.
    discriminate.
Qed.

Lemma score_nonfoundation m gs :
  is_foundation_move m = false -> getMoveScore m gs <= 800.
Proof.
  intros Hf. unfold getMoveScore. rewrite Hf.
  repeat match goal with
         | |- context [if ?b then _ else _] => destruct b
         | |- context [match ?e with _ => _ end] => destruct e
         end; lia.
Qed.

Lemma score_foundation m gs c :
  is_foundation_move m = true -> mcard m = Some c -> value c <= 13 ->
  1010 <= getMoveScore m gs.
Proof.
  intros Hf Hc Hv. unfold getMoveScore. rewrite Hf, Hc.
  repeat match goal with
         | |- context [if ?b then _ else _] => destruct b
         | |- context [match ?e with _ => _ end] => destruct e
         end; lia.
Qed.

End SolverRank.

Module AIRank.
Import SortProps.

Ltac in_cases :=
  repeat match goal with
  | H : In _ (_ ++ _) |- _ => apply in_app_or in H; destruct H as [H|H]
  | H : In _ (flat_map _ _) |- _ => apply in_flat_map in H; destruct H as (? & ? & H)
  | H : In _ (match ?e with _ => _ end) |- _ => destruct e eqn:?
  | H : In _ (if ?e then _ else _) |- _ => destruct e eqn:?
  | H : In _ [] |- _ => destruct H
  | H : In _ [_] |- _ => destruct H as [<-|[]]
  end.

Ltac ai_fin :=
  split; intros Hf; cbn in Hf; try discriminate; cbn [AI.priority AI.mcard];
  first
  [ eexists; split; [reflexivity|]; split; [lia|]; apply in_or_app;
    first [ left; apply top_in; assumption
          | left; match goal with E : waste _ = _ |- _ => rewrite E end;
            apply top_in; assumption
          | right; apply in_concat; eexists; split;
            [eapply nth_error_In; eassumption | apply top_in; eassumption] ]
  | repeat match goal with
           | |- context [if ?b then _ else _] => destruct b
           | |- context [match ?e with _ => _ end] => destruct e
           end; lia ].

Lemma ai_gen_moves fuel gs ms m :
  AI.generateAllPossibleMoves fuel gs = Some ms -> In m ms ->
  (AI.is_foundation_move m = true -> exists c, AI.mcard m = Some c /\
     900 + value c <= AI.priority m /\ In c (waste gs ++ concat (tableau gs))) /\
  (AI.is_foundation_move m = false -> AI.priority m <= 700).
Proof.
  destruct fuel as [|f]; [discriminate|].
  intros H Hin. cbn [AI.generateAllPossibleMoves] in H.
  destruct (stock gs) eqn:Es; [destruct (waste gs) eqn:Ew|];
    try (destruct (AI.analyzeStock_with (AI.generateAllPossibleMoves f) gs); [|discriminate]);
    pose proof (f_equal (fun o => match o with Some x => x | None => ms end) H) as Hms;
    cbv beta iota in Hms; subst ms; in_cases; ai_fin.
Qed.

Lemma sv_foundation moves gs m c :
  AI.is_foundation_move m = true -> AI.mcard m = Some c ->
  900 + value c <= AI.priority m -> 1 <= value c ->
  1901 <= AI.strategicValue moves gs m.
Proof.
  intros Hf Hc Hp Hv. unfold AI.strategicValue. rewrite Hf, Hc.
  unfold AI.is_foundation_move in Hf. destruct (AI.mtype m); try discriminate;
  repeat match goal with
         | |- context [if ?b then _ else _] => destruct b
         end; lia.
Qed.

Lemma sv_nonfoundation moves gs m :
  AI.is_foundation_move m = false -> AI.priority m <= 700 ->
  AI.strategicValue moves gs m <= 1250.
Proof.
  intros Hf Hp. unfold AI.strategicValue. rewrite Hf.
  destruct (AI.mtype m);
  repeat match goal with
         | |- context [if ?b then _ else _] => destruct b
         | |- context [match AI.mcard m with _ => _ end] => destruct (AI.mcard m)
         end; lia.
Qed.

(** C7. Foundation moves rank first. For every state whose waste and
    tableau cards have values 1 .. 13 and every list of moves the generator
    returns for it: in the solver worker, [getMoveScore] gives every
    foundation move (waste or tableau to foundation) a score above that of
    every other move, whatever its reveal and King-to-empty-column bonuses,
    so in the output of [rankMoves] no foundation move comes after a
    non-foundation move; the same holds for the AI worker's
    [strategicValue] and [rankMovesByStrategicValue]. *)
Theorem foundation_moves_rank_first :
  (forall gs ms,
     (forall c, In c (waste gs ++ concat (tableau gs)) -> 1 <= value c <= 13) ->
     Solver.generateAllMoves gs = Some ms ->
     (forall f n, In f ms -> In n ms -> Solver.is_foundation_move f = true ->
        Solver.is_foundation_move n = false ->
        Solver.getMoveScore n gs < Solver.getMoveScore f gs) /\
     (forall l1 n l2 f, Solver.rankMoves ms gs = l1 ++ n :: l2 ->
        Solver.is_foundation_move n = false -> In f l2 ->
        Solver.is_foundation_move f = false)) /\
  (forall fuel gs ms,
     (forall c, In c (waste gs ++ concat (tableau gs)) -> 1 <= value c <= 13) ->
     AI.generateAllPossibleMoves fuel gs = Some ms ->
     (forall f n, In f ms -> In n ms -> AI.is_foundation_move f = true ->
        AI.is_foundation_move n = false ->
        AI.strategicValue ms gs n < AI.strategicValue ms gs f) /\
     (forall l1 n l2 f, AI.rankMovesByStrategicValue ms gs = l1 ++ n :: l2 ->
        AI.is_foundation_move (fst n) = false -> In f l2 ->
        AI.is_foundation_move (fst f) = false)).
Proof.
  split.
  - intros gs ms Hv Hg.
    assert (Hlt : forall f n, In f ms -> In n ms -> Solver.is_foundation_move f = true ->
              Solver.is_foundation_move n = false ->
              Solver.getMoveScore n gs < Solver.getMoveScore f gs).
    { intros f n Hfi _ Hf Hn.
      destruct (SolverRank.gen_found_card _ _ _ Hg Hfi Hf) as (c & Hc & Hin).
      pose proof (SolverRank.score_foundation f gs c Hf Hc (proj2 (Hv c Hin))).
      pose proof (SolverRank.score_nonfoundation n gs Hn). lia. }
    split; [exact Hlt|].
    intros l1 n l2 f E Hn Hf.
    destruct (Solver.is_foundation_move f) eqn:Ef; [exfalso|reflexivity].
    unfold Solver.rankMoves in E.
    pose proof (sort_desc_later _ _ _ _ _ _ E Hf) as Hle.
    assert (Hin : forall x, In x (l1 ++ n :: l2) -> In x ms).
    { intros x Hx. rewrite <- E in Hx.
      exact (Permutation_in _ (Permutation_sym (sort_desc_perm _ ms)) Hx). }
    pose proof (Hlt f n (Hin f (in_or_app l1 (n :: l2) f (or_intror (or_intror Hf))))
                  (Hin n (in_or_app l1 (n :: l2) n (or_intror (or_introl eq_refl)))) Ef Hn).
    cbv beta in Hle. lia.
  - intros fuel gs ms Hv Hg.
    assert (Hlt : forall f n, In f ms -> In n ms -> AI.is_foundation_move f = true ->
              AI.is_foundation_move n = false ->
              AI.strategicValue ms gs n < AI.strategicValue ms gs f).
    { intros f n Hfi Hni Hf Hn.
      destruct (proj1 (ai_gen_moves _ _ _ _ Hg Hfi) Hf) as (c & Hc & Hp & Hin).
      pose proof (sv_foundation ms gs f c Hf Hc Hp (proj1 (Hv c Hin))).
      pose proof (sv_nonfoundation ms gs n Hn (proj2 (ai_gen_moves _ _ _ _ Hg Hni) Hn)).
      lia. }
    split; [exact Hlt|].
    intros l1 n l2 f E Hn Hf.
    destruct (AI.is_foundation_move (fst f)) eqn:Ef; [exfalso|reflexivity].
    unfold AI.rankMovesByStrategicValue in E.
    pose proof (sort_desc_later _ _ _ _ _ _ E Hf) as Hle.
    assert (Hin : forall x, In x (l1 ++ n :: l2) ->
              x = (fst x, AI.strategicValue ms gs (fst x)) /\ In (fst x) ms).
    { intros x Hx. rewrite <- E in Hx.
      apply (Permutation_in _ (Permutation_sym (sort_desc_perm _ _))) in Hx.
      apply in_map_iff in Hx as (m & <- & Hm). split; [reflexivity | exact Hm]. }
    destruct (Hin f (in_or_app l1 (n :: l2) f (or_intror (or_intror Hf)))) as [Ef' Hfm].
    destruct (Hin n (in_or_app l1 (n :: l2) n (or_intror (or_introl eq_refl)))) as [En' Hnm].
    pose proof (Hlt (fst f) (fst n) Hfm Hnm Ef Hn).
    rewrite Ef', En' in Hle. simpl in Hle. lia.
Qed.

Lemma foundation_moves_rank_first_witness :
  (exists ms, Solver.generateAllMoves ex_one_move = Some ms /\
     (exists f n, In f ms /\ In n ms /\ Solver.is_foundation_move f = true /\
        Solver.is_foundation_move n = false /\
        Solver.getMoveScore n ex_one_move < Solver.getMoveScore f ex_one_move) /\
     forall l1 n l2 f, Solver.rankMoves ms ex_one_move = l1 ++ n :: l2 ->
       Solver.is_foundation_move n = false -> In f l2 ->
       Solver.is_foundation_move f = false) /\
  (exists ms, AI.generateAllPossibleMoves 1 ex_one_move = Some ms /\
     (exists f n, In f ms /\ In n ms /\ AI.is_foundation_move f = true /\
        AI.is_foundation_move n = false /\
        AI.strategicValue ms ex_one_move n < AI.strategicValue ms ex_one_move f) /\
     forall l1 n l2 f, AI.rankMovesByStrategicValue ms ex_one_move = l1 ++ n :: l2 ->
       AI.is_foundation_move (fst n) = false -> In f l2 ->
       AI.is_foundation_move (fst f) = false).
Proof.
  assert (Hv : forall c, In c (waste ex_one_move ++ concat (tableau ex_one_move)) ->
             1 <= value c <= 13)
    by (intros c Hc; simpl in Hc; destruct Hc as [<-|[]]; simpl; lia).
  split; eexists; (split; [reflexivity|]); split.
  - do 2 eexists. split; [left; reflexivity|]. split; [right; left; reflexivity|].
    split; [reflexivity|]. split; [reflexivity|].
    apply (proj1 (proj1 foundation_moves_rank_first ex_one_move _ Hv eq_refl));
      [left; reflexivity | right; left; reflexivity | reflexivity | reflexivity].
  - exact (proj2 (proj1 foundation_moves_rank_first ex_one_move _ Hv eq_refl)).
  - do 2 eexists. split; [left; reflexivity|]. split; [right; left; reflexivity|].
    split; [reflexivity|]. split; [reflexivity|].
    apply (proj1 (proj2 foundation_moves_rank_first 1%nat ex_one_move _ Hv eq_refl));
      [left; reflexivity | right; left; reflexivity | reflexivity | reflexivity].
  - exact (proj2 (proj2 foundation_moves_rank_first 1%nat ex_one_move _ Hv eq_refl)).
Defined.

End AIRank.

(** * The two win checks *)
Module WinProps.

(** C9. The solver worker's [isGameWon] (the foundation pile lengths sum to
    52) and the AI worker's [isGameWon] (every foundation pile has 13 cards)
    agree on every state with four foundation piles of at most 13 cards
    each. *)
Theorem win_checks_agree gs :
  length (foundations gs) = 4%nat ->
  (forall kp, In kp (foundations gs) -> (length (snd kp) <= 13)%nat) ->
  Solver.isGameWon gs = AI.isGameWon gs.
Proof.
  intros Hl Hb. unfold Solver.isGameWon, AI.isGameWon, foundation_count.
  destruct (foundations gs) as [|[s1 p1] [|[s2 p2] [|[s3 p3] [|[s4 p4] [|]]]]];
    simpl in Hl; try discriminate.
  pose proof (Hb (s1, p1) (or_introl eq_refl)).
  pose proof (Hb (s2, p2) (or_intror (or_introl eq_refl))).
  pose proof (Hb (s3, p3) (or_intror (or_intror (or_introl eq_refl)))).
  pose proof (Hb (s4, p4) (or_intror (or_intror (or_intror (or_introl eq_refl))))).
  simpl in *. rewrite andb_true_r.
  apply Bool.eq_iff_eq_true. rewrite Nat.eqb_eq, !andb_true_iff, !Nat.eqb_eq.
  split; [intros; lia | intros (? & ? & ? & ?); lia].
Qed.

Lemma win_checks_agree_witness :
  length (foundations ex_one_move) = 4%nat /\
  Solver.isGameWon ex_one_move = AI.isGameWon ex_one_move.
Proof.
  split; [reflexivity|].
  apply win_checks_agree; [reflexivity|].
  intros kp Hkp; simpl in Hkp.
  destruct Hkp as [<-|[<-|[<-|[<-|[]]]]]; simpl; lia.
Defined.

End WinProps.

(** * Divergences between the workers and the placement and draw rules *)
Module Divergences.

(** C3. The AI worker's [generateAllPossibleMoves] tries the top card of
    every tableau column on every foundation pile, and an empty pile accepts
    any Ace: with the Ace of Hearts alone on column 0 it offers the move of
    that Ace onto the empty Spades foundation (whatever the depth of the call
    stack), and [applyMoveToState] then puts the Ace of Hearts on the Spades
    pile. The solver worker, which looks up [foundations[card.suit]], offers
    only the move onto the Hearts pile. *)
Theorem ai_offers_foundation_of_other_suit (k : nat) :
  exists ms,
    AI.generateAllPossibleMoves (S k) ex_ace_hearts = Some ms /\
    In (AI.mkMove AI.tableau_to_foundation (LCol 0) (LSuit Spade)
          (Some (mkCard Heart 1 true)) 1001 0) ms /\
    (exists gs',
       AI.applyMoveToState ex_ace_hearts
         (AI.mkMove AI.tableau_to_foundation (LCol 0) (LSuit Spade)
            (Some (mkCard Heart 1 true)) 1001 0) = Some gs' /\
       lookup_suit (foundations gs') Spade = Some [mkCard Heart 1 true]) /\
    (exists sms,
       Solver.generateAllMoves ex_ace_hearts = Some sms /\
       filter Solver.is_foundation_move sms
       = [Solver.mkMove Solver.tableau_to_foundation (LCol 0) (LSuit Heart)
            (Some (mkCard Heart 1 true)) None]).
Proof.
  eexists; split; [reflexivity|]. split.
  - simpl. left; reflexivity.
  - split; eexists; split; reflexivity.
Qed.

(** C4. The stock draw as the workers apply it. The solver's [applyMove]
    moves only the top stock card, with three cards in the stock and
    [drawMode] 3, and leaves it face down; with an empty stock it does not
    recycle the waste. The AI worker's [applyMoveToState] moves the three
    cards without turning them face up, and recycles the waste into the stock
    without turning its cards face down. *)
Theorem stock_draw_keeps_orientation :
  Solver.applyMove ex_stock_three
    (Solver.mkMove Solver.stock_to_waste LStock LWaste None None)
  = Some (mkState (tableau ex_stock_three) empty_foundations
            [mkCard Club 5 false; mkCard Heart 9 false] [mkCard Spade 2 false] None) /\
  Solver.applyMove ex_waste_one
    (Solver.mkMove Solver.stock_to_waste LStock LWaste None None)
  = Some (mkState (tableau ex_waste_one) empty_foundations [] [mkCard Club 5 true] None) /\
  AI.applyMoveToState ex_stock_three (AI.mkMove AI.draw_stock LStock LWaste None 15 1)
  = Some (mkState (tableau ex_stock_three) empty_foundations []
            [mkCard Club 5 false; mkCard Heart 9 false; mkCard Spade 2 false]
            (Some 3%nat)) /\
  AI.applyMoveToState ex_waste_one (AI.mkMove AI.draw_stock LStock LWaste None 15 1)
  = Some (mkState (tableau ex_waste_one) empty_foundations [mkCard Club 5 true] []
            (Some 3%nat)).
Proof. repeat split. Qed.

(** C5. The solver's tableau-to-tableau generation checks the first face-up
    card of the column ([faceUpCards[0]]) for every [seqLen], but applying
    the move takes the top [seqLen] cards. With King of Spades and Queen of
    Hearts face up on column 0, it offers the move of the single top card
    (the Queen) to the empty column 1, and applying it leaves the Queen alone
    on column 1, although the Queen may not be placed on an empty column. *)
Theorem tableau_move_checks_wrong_card :
  exists ms,
    Solver.generateAllMoves ex_king_queen = Some ms /\
    In (Solver.mkMove Solver.tableau_to_tableau (LCol 0) (LCol 1)
          (Some (mkCard Spade 13 true)) (Some 1%nat)) ms /\
    Solver.applyMove ex_king_queen
      (Solver.mkMove Solver.tableau_to_tableau (LCol 0) (LCol 1)
         (Some (mkCard Spade 13 true)) (Some 1%nat))
    = Some (mkState [[mkCard Spade 13 true]; [mkCard Heart 12 true]; []; []; []; []; []]
              empty_foundations [] [] None) /\
    Solver.canPlaceOnTableau (mkCard Heart 12 true) [] = false.
Proof.
  eexists; split; [reflexivity|]. split; [|split; reflexivity].
  simpl. tauto.
Qed.

End Divergences.

(** * Further properties of the AI worker *)

Module AIProps.

(** ** The generator's recursion through [analyzeStock] *)

Lemma analyzeStock_throws genf gs :
  (stock gs <> [] \/ waste gs <> []) -> genf gs = None ->
  AI.analyzeStock_with genf gs = None.
Proof.
  intros Hne Hg. unfold AI.analyzeStock_with. rewrite Hg.
  destruct (stock gs), (waste gs); [destruct Hne as [H|H]; contradiction|reflexivity..].
Qed.

Lemma gen_throws fuel gs :
  (stock gs <> [] \/ waste gs <> []) -> AI.generateAllPossibleMoves fuel gs = None.
Proof.
  intros Hne. induction fuel as [|f IH]; [reflexivity|].
  cbn [AI.generateAllPossibleMoves].
  rewrite (analyzeStock_throws _ gs Hne IH).
  destruct (stock gs), (waste gs); [destruct Hne as [H|H]; contradiction|reflexivity..].
Qed.

Lemma gen_empty_stock f gs :
  stock gs = [] -> waste gs = [] -> AI.generateAllPossibleMoves (S f) gs <> None.
Proof.
  intros Hs Hw. cbn [AI.generateAllPossibleMoves]. rewrite Hs, Hw. discriminate.
Qed.

(** ** Replaying paths *)

Lemma replay_app gs ms1 ms2 :
  AI.replay gs (ms1 ++ ms2) =
  match AI.replay gs ms1 with Some g => AI.replay g ms2 | None => None end.
Proof.
  revert gs; induction ms1 as [|m ms1 IH]; intros gs; [reflexivity|].
  cbn [app AI.replay]. destruct (AI.applyMoveToState gs m); [apply IH|reflexivity].
Qed.

Lemma searchWinningPath_sound stack d : forall gs sq p,
  AI.searchWinningPath stack gs sq d = Some (Some p) ->
  exists suffix gs', p = sq ++ suffix /\ (length suffix <= d)%nat /\
    AI.replay gs suffix = Some gs' /\ AI.isGameWon gs' = true.
Proof.
  induction d as [|d IH]; intros gs sq p H; cbn [AI.searchWinningPath] in H;
    destruct (AI.isGameWon gs) eqn:W.
  - injection H as <-. exists [], gs. rewrite app_nil_r. repeat split; auto.
  - discriminate.
  - injection H as <-. exists [], gs. rewrite app_nil_r. repeat split; auto; cbn; lia.
  - destruct (AI.generateAllPossibleMoves stack gs) as [pm|]; [|discriminate].
    revert H. generalize (firstn (AI.maxBranches (S d))
                    (map fst (AI.rankMovesByStrategicValue pm gs))) as l.
    induction l as [|m l IHl]; intros H; [discriminate|].
    destruct ((75 <? S d)%nat && AI.isProbablyBadMove m gs); [exact (IHl H)|].
    destruct (AI.applyMoveToState gs m) as [ns|] eqn:A; [|discriminate].
    destruct ((AI.calculateProgressScore ns gs <? -10) && (50 <? S d)%nat);
      [exact (IHl H)|].
    destruct (AI.searchWinningPath stack ns (sq ++ [m]) d) as [[p'|]|] eqn:R;
      [|exact (IHl H)|discriminate].
    injection H as <-.
    destruct (IH ns (sq ++ [m]) p' R) as (suf & g & -> & Hl & Hr & Hw).
    exists (m :: suf), g. rewrite <- app_assoc. cbn [length AI.replay]. rewrite A.
    repeat split; auto; lia.
Qed.

Lemma calculatePathConfidence_range p :
  20 <= AI.calculatePathConfidence p <= 95.
Proof. unfold AI.calculatePathConfidence. lia. Qed.

(** ** Measures of the progress score *)

(** The face-down cards of one pile. *)
Definition hidp (p : list Card) : nat := length (filter (fun c => negb (faceUp c)) p).

Lemma fold_add {A} (f : A -> nat) l a :
  fold_left (fun s x => (s + f x)%nat) l a = (a + fold_left (fun s x => (s + f x)%nat) l 0)%nat.
Proof.
  revert a; induction l as [|x l IH]; intros a; simpl; [lia|].
  rewrite IH, (IH (f x)). lia.
Qed.

Lemma hidden_count_cons p t : AI.hidden_count (p :: t) = (hidp p + AI.hidden_count t)%nat.
Proof. unfold AI.hidden_count. simpl. apply fold_add. Qed.

Lemma foundation_count_cons kp fs :
  foundation_count (kp :: fs) = (length (snd kp) + foundation_count fs)%nat.
Proof. unfold foundation_count. simpl. apply fold_add. Qed.

Lemma hidden_set_nth t i p x : nth_error t i = Some p ->
  (AI.hidden_count (set_nth t i x) + hidp p = AI.hidden_count t + hidp x)%nat.
Proof.
  revert i; induction t as [|q t IH]; intros [|i] H; simpl in H; try discriminate.
  - injection H as <-. simpl set_nth. rewrite !hidden_count_cons. lia.
  - simpl set_nth. rewrite !hidden_count_cons. specialize (IH i H). lia.
Qed.

Lemma hidp_app p q : hidp (p ++ q) = (hidp p + hidp q)%nat.
Proof. unfold hidp. rewrite filter_app, length_app. reflexivity. Qed.

Lemma hidp_removelast p : (hidp (removelast p) <= hidp p)%nat.
Proof.
  destruct (top p) as [c|] eqn:E.
  - rewrite (DeckProps.top_split p c E) at 2. rewrite hidp_app. lia.
  - unfold top in E. destruct (rev p) eqn:R; [|discriminate].
    apply (f_equal (@rev Card)) in R. rewrite rev_involutive in R. subst p. simpl. lia.
Qed.

Lemma hidp_flip_top p : (hidp (flip_top p) <= hidp p)%nat.
Proof.
  unfold flip_top. destruct (top p) as [c|] eqn:E; [|lia].
  destruct (faceUp c); [lia|].
  rewrite (DeckProps.top_split p c E) at 2. rewrite !hidp_app. unfold hidp. simpl. lia.
Qed.

Lemma update_suit_count fs s p q : lookup_suit fs s = Some q ->
  (foundation_count (update_suit fs s p) + length q = foundation_count fs + length p)%nat.
Proof.
  induction fs as [|[k r] fs IH]; simpl; intros H; [discriminate|].
  destruct (suit_eqb k s).
  - injection H as <-. rewrite !foundation_count_cons. simpl. lia.
  - rewrite !foundation_count_cons. specialize (IH H). simpl. lia.
Qed.

Lemma fnd_set_count fs l p q : fnd_at fs l = Some q ->
  (foundation_count (fnd_set fs l p) + length q = foundation_count fs + length p)%nat.
Proof. destruct l; simpl; try discriminate. apply update_suit_count. Qed.

Lemma tab_set_hidden t l p x : tab_at t l = Some p ->
  (AI.hidden_count (tab_set t l x) + hidp p = AI.hidden_count t + hidp x)%nat.
Proof. destruct l; simpl; try discriminate. apply hidden_set_nth. Qed.

(** ** The stock simulation *)

Lemma top_some_of_length p : (0 < length p)%nat -> exists c, top p = Some c.
Proof.
  unfold top. destruct (rev p) as [|c r] eqn:E; [|eauto].
  intros H. apply (f_equal (@length Card)) in E. rewrite length_rev in E. simpl in E. lia.
Qed.

Lemma simulate_loop_shape gs dm fuel : forall draw sc wc,
  (0 < dm)%nat -> sc ++ wc <> [] ->
  map AI.drawNumber (AI.simulate_loop gs dm fuel draw sc wc)
    = map (fun k => draw + Z.of_nat k) (seq 1 fuel) /\
  forall u, In u (AI.simulate_loop gs dm fuel draw sc wc) -> In (AI.ucard u) (sc ++ wc).
Proof.
  induction fuel as [|f IH]; intros draw sc wc Hdm Hne; [split; [reflexivity|contradiction]|].
  set (p := match sc with [] => (rev wc, []) | _ => (sc, wc) end).
  assert (Hp : incl (fst p ++ snd p) (sc ++ wc) /\ (0 < length (fst p))%nat).
  { subst p. destruct sc as [|x sc']; cbn [fst snd].
    - rewrite app_nil_r. split; [intros y Hy; apply in_rev; exact Hy|].
      rewrite length_rev. destruct wc; [contradiction|simpl; lia].
    - split; [apply incl_refl|simpl; lia]. }
  assert (E : AI.simulate_loop gs dm (S f) draw sc wc =
    let '(sc0, wc0) := p in
    let k := Nat.min dm (length sc0) in
    let cardsDrawn := skipn (length sc0 - k) sc0 in
    let sc' := firstn (length sc0 - k) sc0 in
    match top cardsDrawn with
    | Some topCard =>
        AI.mkUpcoming topCard (draw + 1) (AI.isCardUsefulInPosition topCard gs)
          :: AI.simulate_loop gs dm f (draw + 1) sc' (wc0 ++ cardsDrawn)
    | None => AI.simulate_loop gs dm f (draw + 1) sc' (wc0 ++ cardsDrawn)
    end).
  { cbn [AI.simulate_loop]. subst p. destruct sc, wc; [contradiction|reflexivity..]. }
  rewrite E. clearbody p. destruct p as [sc0 wc0]. cbn [fst snd] in Hp.
  destruct Hp as [Hincl Hlen]. cbv beta iota zeta.
  set (n := (length sc0 - Nat.min dm (length sc0))%nat).
  assert (Hk : (0 < length (skipn n sc0))%nat)
    by (rewrite length_skipn; subst n; lia).
  destruct (top_some_of_length _ Hk) as [c Hc]. rewrite Hc.
  assert (Hsub : incl (firstn n sc0 ++ wc0 ++ skipn n sc0) (sc ++ wc)).
  { intros y Hy. apply Hincl. rewrite <- (firstn_skipn n sc0).
    rewrite !in_app_iff in *. tauto. }
  assert (Hne' : firstn n sc0 ++ wc0 ++ skipn n sc0 <> []).
  { intros Z. apply (f_equal (@length Card)) in Z. rewrite !length_app in Z. simpl in Z. lia. }
  destruct (IH (draw + 1) (firstn n sc0) (wc0 ++ skipn n sc0) Hdm Hne') as [IH1 IH2].
  split.
  - cbn [map AI.drawNumber]. rewrite IH1. cbn [seq map]. f_equal; try lia.
    rewrite <- (seq_shift f 1), map_map. apply map_ext. intros x. lia.
  - intros u [<-|Hu]; cbn [AI.ucard].
    + apply Hincl. apply DeckProps.top_split in Hc.
      rewrite <- (firstn_skipn n sc0), in_app_iff, in_app_iff. left; right.
      rewrite Hc. apply in_or_app; right; left; reflexivity.
    + apply Hsub, IH2, Hu.
Qed.

(** ** Drawing through the stock one card at a time *)

Lemma draw_one_each t f s w c m :
  AI.mtype m = AI.draw_stock ->
  AI.applyMoveToState (mkState t f (s ++ [c]) w (Some 1%nat)) m
    = Some (mkState t f s (w ++ [c]) (Some 1%nat)).
Proof.
  intros Hm. unfold AI.applyMoveToState, AI.cloneGameState, AI.draw_mode. rewrite Hm.
  cbn [tableau foundations stock waste drawMode].
  destruct (s ++ [c]) as [|x r] eqn:E; [destruct s; discriminate|].
  rewrite <- E, length_app. cbn [length].
  replace (Nat.min 1 (length s + 1)) with 1%nat by lia.
  replace (length s + 1 - 1)%nat with (length s) by lia.
  rewrite firstn_app, skipn_app, firstn_all, Nat.sub_diag, skipn_all. cbn.
  rewrite app_nil_r. reflexivity.
Qed.

Lemma draw_all t f m : AI.mtype m = AI.draw_stock -> forall s w,
  AI.replay (mkState t f s w (Some 1%nat)) (repeat m (length s))
    = Some (mkState t f [] (w ++ rev s) (Some 1%nat)).
Proof.
  intros Hm s. induction s as [|c s IH] using rev_ind; intros w.
  - rewrite app_nil_r. reflexivity.
  - rewrite length_app. cbn [length]. rewrite Nat.add_1_r. cbn [repeat AI.replay].
    rewrite (draw_one_each _ _ _ _ _ _ Hm), IH, rev_app_distr, app_assoc. reflexivity.
Qed.

(** ** Properties *)

(** [generateAllPossibleMoves] and [analyzeStock] call each other on the
    same state without a base case whenever the stock or the waste holds a
    card: for every stack depth both calls end in the stack-overflow
    exception. *)
Theorem ai_generate_unbounded fuel gs :
  (stock gs <> [] \/ waste gs <> []) ->
  AI.generateAllPossibleMoves fuel gs = None /\
  AI.analyzeStock_with (AI.generateAllPossibleMoves fuel) gs = None.
Proof.
  intros Hne. pose proof (gen_throws fuel gs Hne) as G.
  split; [exact G|]. exact (analyzeStock_throws _ gs Hne G).
Qed.

Lemma ai_generate_unbounded_witness :
  (stock ex_stock_one <> [] \/ waste ex_stock_one <> []) /\
  AI.generateAllPossibleMoves 100 ex_stock_one = None /\
  AI.analyzeStock_with (AI.generateAllPossibleMoves 100) ex_stock_one = None.
Proof.
  split; [left; discriminate|]. apply ai_generate_unbounded. left; discriminate.
Defined.

(** [analyzePosition] throws when the stock or the waste holds a card.
    Otherwise (with a stack deep enough for one generator call) it returns
    the generated moves sorted by priority, no draw recommendation, and as
    best move the first of them: [null] exactly when there is no move,
    otherwise a generated move of maximal priority. *)
Theorem analyzePosition_cases stack gs :
  ((stock gs <> [] \/ waste gs <> []) -> AI.analyzePosition stack gs = None) /\
  (stock gs = [] -> waste gs = [] -> (0 < stack)%nat ->
   exists ms a, AI.generateAllPossibleMoves stack gs = Some ms /\
     AI.analyzePosition stack gs = Some a /\
     Permutation ms (AI.possibleMoves a) /\
     StronglySorted (fun x y => AI.priority y <= AI.priority x) (AI.possibleMoves a) /\
     AI.stockRecommendation a = AI.mkSA false 0 /\
     (AI.bestMove a = None <-> ms = []) /\
     (forall b, AI.bestMove a = Some b ->
        In b ms /\ forall m, In m ms -> AI.priority m <= AI.priority b)).
Proof.
  split.
  - intros Hne. unfold AI.analyzePosition.
    rewrite (gen_throws stack (AI.cloneGameState gs) Hne). reflexivity.
  - intros Hs Hw Hst. destruct stack as [|f]; [lia|].
    destruct (AI.generateAllPossibleMoves (S f) gs) as [ms|] eqn:G;
      [|exfalso; exact (gen_empty_stock f gs Hs Hw G)].
    assert (Gc : AI.generateAllPossibleMoves (S f) (AI.cloneGameState gs) = Some ms).
    { rewrite <- G. cbn [AI.generateAllPossibleMoves]. unfold AI.cloneGameState.
      cbn [tableau foundations stock waste]. rewrite Hs, Hw. reflexivity. }
    exists ms. unfold AI.analyzePosition. rewrite Gc.
    unfold AI.analyzeStock_with at 1. unfold AI.cloneGameState at 1 2.
    cbn [stock waste]. rewrite Hs, Hw.
    eexists; split; [reflexivity|]; split; [reflexivity|].
    cbn [AI.possibleMoves AI.bestMove AI.stockRecommendation].
    pose proof (SortProps.sort_desc_perm AI.priority ms) as P.
    unfold AI.rankMovesByPriority.
    split; [exact P|]. split; [apply SortProps.sort_desc_sorted|].
    split; [reflexivity|].
    destruct (sort_desc AI.priority ms) as [|b rest] eqn:E.
    + split; [|intros; discriminate]. split; [intros _|reflexivity].
      apply Permutation_nil, Permutation_sym, P.
    + split; [split; [discriminate|intros ->; apply Permutation_nil_cons in P; contradiction]|].
      intros b' Hb. injection Hb as <-.
      split; [apply (Permutation_in _ (Permutation_sym P)); left; reflexivity|].
      intros m Hm. apply (Permutation_in _ P) in Hm. destruct Hm as [<-|Hm]; [lia|].
      exact (SortProps.sort_desc_later AI.priority ms [] b rest m E Hm).
Qed.

Lemma analyzePosition_cases_witness :
  AI.analyzePosition 100 ex_stock_one = None /\
  exists ms a, AI.generateAllPossibleMoves 1 ex_one_move = Some ms /\
     AI.analyzePosition 1 ex_one_move = Some a /\
     ms <> [] /\
     Permutation ms (AI.possibleMoves a) /\
     StronglySorted (fun x y => AI.priority y <= AI.priority x) (AI.possibleMoves a) /\
     AI.stockRecommendation a = AI.mkSA false 0 /\
     (AI.bestMove a = None <-> ms = []) /\
     (forall b, AI.bestMove a = Some b ->
        In b ms /\ forall m, In m ms -> AI.priority m <= AI.priority b).
Proof.
  split.
  - apply (proj1 (analyzePosition_cases 100 ex_stock_one)). left; discriminate.
  - destruct (proj2 (analyzePosition_cases 1 ex_one_move) eq_refl eq_refl)
      as (ms & a & G & R); [lia|].
    exists ms, a. split; [exact G|]. split; [exact (proj1 R)|].
    split; [|exact (proj2 R)].
    intros E. rewrite E in G. discriminate G.
Defined.

(** When [findWinningPath] reports [canWin], its [moveCount] is the length
    of [moves], its [confidence] lies between 20 and 95, the path is no
    longer than [maxDepth] (150 by default), and replaying it from the input
    state with [applyMoveToState] succeeds at every step and ends in a won
    state. *)
Theorem findWinningPath_sound stack gs md ms n conf :
  AI.findWinningPath stack gs md = AI.path_result true ms n conf ->
  n = length ms /\ 20 <= conf <= 95 /\
  (length ms <= match md with Some d => d | None => 150 end)%nat /\
  exists gs', AI.replay gs ms = Some gs' /\ AI.isGameWon gs' = true.
Proof.
  unfold AI.findWinningPath.
  destruct (AI.searchWinningPath stack gs [] _) as [[p|]|] eqn:R; intros H;
    try discriminate.
  injection H as <- <- <-.
  destruct (searchWinningPath_sound stack _ gs [] p R) as (suf & g & E & Hl & Hr & Hw).
  cbn in E; subst suf.
  split; [reflexivity|]. split; [apply calculatePathConfidence_range|].
  split; [exact Hl|]. exists g; auto.
Qed.

Lemma findWinningPath_sound_witness :
  AI.findWinningPath 1 ex_one_move None =
    AI.path_result true
      [AI.mkMove AI.tableau_to_foundation (LCol 0) (LSuit Spade)
         (Some (mkCard Spade 13 true)) 1013 0] 1 95 /\
  exists gs', AI.replay ex_one_move
      [AI.mkMove AI.tableau_to_foundation (LCol 0) (LSuit Spade)
         (Some (mkCard Spade 13 true)) 1013 0] = Some gs' /\ AI.isGameWon gs' = true.
Proof.
  split; [vm_compute; reflexivity|].
  apply (findWinningPath_sound 1 ex_one_move None _ 1 95). vm_compute. reflexivity.
Defined.

(** [findWinningPath] on a state that is not won, with a card in the stock or
    the waste and a [maxDepth] other than 0, returns the error object: the
    first [generateAllPossibleMoves] call of the search overflows the
    stack. *)
Theorem findWinningPath_stock_error stack gs md :
  (stock gs <> [] \/ waste gs <> []) -> AI.isGameWon gs = false ->
  md <> Some 0%nat ->
  AI.findWinningPath stack gs md = AI.path_error.
Proof.
  intros Hne Hw Hmd. unfold AI.findWinningPath.
  destruct (match md with Some d => d | None => 150%nat end) as [|d] eqn:D.
  { destruct md as [[|]|]; [contradiction|discriminate..]. }
  cbn [AI.searchWinningPath]. rewrite Hw, (gen_throws stack gs Hne). reflexivity.
Qed.

Lemma findWinningPath_stock_error_witness :
  AI.isGameWon ex_stock_one = false /\
  AI.findWinningPath 100 ex_stock_one None = AI.path_error.
Proof.
  split; [reflexivity|].
  apply findWinningPath_stock_error; [left; discriminate|reflexivity|discriminate].
Defined.

(** [findWinningPath] on a won state reports [canWin] with no move and
    confidence 95, whatever [maxDepth]; with [maxDepth] 0 it reports
    [canWin] exactly for a won state, and otherwise an empty failed result. *)
Theorem findWinningPath_trivial stack gs md :
  (AI.isGameWon gs = true -> AI.findWinningPath stack gs md = AI.path_result true [] 0 95) /\
  AI.findWinningPath stack gs (Some 0%nat)
    = if AI.isGameWon gs then AI.path_result true [] 0 95 else AI.path_result false [] 0 0.
Proof.
  split.
  - intros W. unfold AI.findWinningPath.
    destruct (match md with Some d => d | None => 150%nat end);
      cbn [AI.searchWinningPath]; rewrite W; reflexivity.
  - unfold AI.findWinningPath. cbn [AI.searchWinningPath].
    destruct (AI.isGameWon gs); reflexivity.
Qed.

Lemma findWinningPath_trivial_witness :
  AI.findWinningPath 0 (mkState [] [(Spade, run Spade 13); (Heart, run Heart 13);
       (Diamond, run Diamond 13); (Club, run Club 13)] [mkCard Club 5 false] [] None) None
    = AI.path_result true [] 0 95 /\
  AI.findWinningPath 0 ex_stock_one (Some 0%nat) = AI.path_result false [] 0 0.
Proof.
  split.
  - apply (proj1 (findWinningPath_trivial 0 _ None)). reflexivity.
  - apply (proj2 (findWinningPath_trivial 0 ex_stock_one None)).
Defined.

(** The progress score of a move applied by [applyMoveToState] is never
    negative: no move adds a face-down card to the tableau or takes a card
    off a foundation, so the search never skips a move for a score below
    -10. A foundation move that changes the state scores at least 10. *)
Theorem applyMoveToState_progress gs m gs' :
  AI.applyMoveToState gs m = Some gs' ->
  0 <= AI.calculateProgressScore gs' gs /\
  (AI.is_foundation_move m = true -> gs' = gs \/ 10 <= AI.calculateProgressScore gs' gs).
Proof.
  assert (Z0 : forall g, AI.calculateProgressScore g g = 0)
    by (intros; unfold AI.calculateProgressScore; lia).
  unfold AI.applyMoveToState, AI.cloneGameState, AI.is_foundation_move.
  cbn [tableau foundations stock waste drawMode].
  destruct (AI.mtype m).
  - destruct (tab_at (tableau gs) (AI.mfrom m)) as [tp|] eqn:T;
      [|intros H; injection H as <-; rewrite Z0; split; [lia|auto]].
    destruct (fnd_at (foundations gs) (AI.mto m)) as [fp|] eqn:F;
      [|intros H; injection H as <-; rewrite Z0; split; [lia|auto]].
    destruct (top tp) as [c|] eqn:C; [|discriminate].
    intros H; injection H as <-.
    pose proof (fnd_set_count _ _ (fp ++ [c]) _ F) as HF.
    pose proof (tab_set_hidden _ _ _ (flip_top (removelast tp)) T) as HT.
    pose proof (hidp_flip_top (removelast tp)). pose proof (hidp_removelast tp).
    rewrite length_app in HF. cbn [length] in HF.
    unfold AI.calculateProgressScore; cbn [tableau foundations].
    assert (10 <= (Z.of_nat (foundation_count (fnd_set (foundations gs) (AI.mto m) (fp ++ [c])))
        - Z.of_nat (foundation_count (foundations gs))) * 10 +
      (Z.of_nat (AI.hidden_count (tableau gs)) -
       Z.of_nat (AI.hidden_count (tab_set (tableau gs) (AI.mfrom m) (flip_top (removelast tp))))) * 5)
      by lia.
    split; [lia|auto].
  - destruct (fnd_at (foundations gs) (AI.mto m)) as [fp|] eqn:F;
      [|intros H; injection H as <-; rewrite Z0; split; [lia|auto]].
    destruct (top (waste gs)) as [c|] eqn:C; [|discriminate].
    intros H; injection H as <-.
    pose proof (fnd_set_count _ _ (fp ++ [c]) _ F) as HF.
    rewrite length_app in HF. cbn [length] in HF.
    unfold AI.calculateProgressScore; cbn [tableau foundations].
    split; [lia|intros _; right; lia].
  - destruct (tab_at (tableau gs) (AI.mfrom m)) as [fromPile|] eqn:T;
      [|intros H; injection H as <-; rewrite Z0; split; [lia|discriminate]].
    destruct (tab_at (tab_set (tableau gs) (AI.mfrom m) (removelast fromPile)) (AI.mto m))
      as [toPile|] eqn:T1;
      [|intros H; injection H as <-; rewrite Z0; split; [lia|discriminate]].
    destruct (top fromPile) as [c|] eqn:C; [|discriminate].
    destruct (tab_at (tab_set (tab_set (tableau gs) (AI.mfrom m) (removelast fromPile))
               (AI.mto m) (toPile ++ [c])) (AI.mfrom m)) as [fp'|] eqn:T2;
      [|intros H; injection H as <-; rewrite Z0; split; [lia|discriminate]].
    intros H; injection H as <-. split; [|discriminate].
    pose proof (tab_set_hidden _ _ _ (removelast fromPile) T) as H1.
    pose proof (tab_set_hidden _ _ _ (toPile ++ [c]) T1) as H2.
    pose proof (tab_set_hidden _ _ _ (flip_top fp') T2) as H3.
    pose proof (hidp_flip_top fp') as H4.
    pose proof (f_equal hidp (DeckProps.top_split fromPile c C)) as H5.
    rewrite hidp_app in H2, H5.
    unfold AI.calculateProgressScore; cbn [tableau foundations]. lia.
  - destruct (stock gs) as [|s ss].
    + destruct (waste gs) as [|w ws]; intros H; injection H as <-;
        unfold AI.calculateProgressScore; cbn [tableau foundations]; split; try lia; discriminate.
    + intros H; injection H as <-.
      unfold AI.calculateProgressScore; cbn [tableau foundations]; split; try lia; discriminate.
Qed.

Lemma applyMoveToState_progress_witness :
  10 <= AI.calculateProgressScore
          (match AI.applyMoveToState ex_one_move
                   (AI.mkMove AI.tableau_to_foundation (LCol 0) (LSuit Spade)
                      (Some (mkCard Spade 13 true)) 1013 0)
           with Some g => g | None => ex_one_move end) ex_one_move.
Proof.
  destruct (applyMoveToState_progress ex_one_move
              (AI.mkMove AI.tableau_to_foundation (LCol 0) (LSuit Spade)
                 (Some (mkCard Spade 13 true)) 1013 0)
              (match AI.applyMoveToState ex_one_move
                   (AI.mkMove AI.tableau_to_foundation (LCol 0) (LSuit Spade)
                      (Some (mkCard Spade 13 true)) 1013 0)
               with Some g => g | None => ex_one_move end)) as [_ H];
    [vm_compute; reflexivity|].
  destruct (H eq_refl) as [E|E]; [vm_compute in E; discriminate E|exact E].
Defined.

(** [simulateStockDraws(state, maxDraws)] returns no entry when stock and
    waste are empty; otherwise exactly [maxDraws] entries, numbered 1 ..
    [maxDraws] in order, each showing a card of the stock or the waste. *)
Theorem simulateStockDraws_shape gs n :
  (stock gs = [] -> waste gs = [] -> AI.simulateStockDraws gs n = []) /\
  (stock gs ++ waste gs <> [] ->
   map AI.drawNumber (AI.simulateStockDraws gs n) = map (fun k => Z.of_nat k) (seq 1 n) /\
   forall u, In u (AI.simulateStockDraws gs n) -> In (AI.ucard u) (stock gs ++ waste gs)).
Proof.
  unfold AI.simulateStockDraws. split.
  - intros Hs Hw. rewrite Hs, Hw. destruct n; reflexivity.
  - intros Hne. assert (Hdm : (0 < AI.draw_mode gs)%nat)
      by (unfold AI.draw_mode; destruct (drawMode gs) as [[|]|]; lia).
    destruct (simulate_loop_shape gs _ n 0 _ _ Hdm Hne) as [H1 H2].
    split; [|exact H2]. rewrite H1. apply map_ext. intros; lia.
Qed.

Lemma simulateStockDraws_shape_witness :
  AI.simulateStockDraws ex_no_cards 10 = [] /\
  map AI.drawNumber (AI.simulateStockDraws ex_stock_three 10)
    = map (fun k => Z.of_nat k) (seq 1 10).
Proof.
  split.
  - apply (proj1 (simulateStockDraws_shape ex_no_cards 10)); reflexivity.
  - apply (proj2 (simulateStockDraws_shape ex_stock_three 10)). discriminate.
Defined.

(** In draw-one mode, drawing through the whole stock with [draw_stock]
    moves and then drawing once more (which recycles the waste) leaves the
    stock as the old stock followed by the old waste reversed, and an empty
    waste; from an empty waste this is the original stock. *)
Theorem draw_mode_one_cycle gs m :
  AI.mtype m = AI.draw_stock -> drawMode gs = Some 1%nat ->
  AI.replay gs (repeat m (S (length (stock gs))))
    = Some (mkState (tableau gs) (foundations gs) (stock gs ++ rev (waste gs)) [] (Some 1%nat)).
Proof.
  intros Hm. destruct gs as [t f s w dm]; cbn [drawMode tableau foundations stock waste].
  intros ->.
  change (repeat m (S (length s))) with (m :: repeat m (length s)).
  rewrite repeat_cons, replay_app, (draw_all _ _ _ Hm). cbn [AI.replay].
  unfold AI.applyMoveToState, AI.cloneGameState, AI.draw_mode. rewrite Hm.
  cbn [tableau foundations stock waste drawMode].
  rewrite rev_app_distr, rev_involutive.
  destruct (w ++ rev s) as [|x r] eqn:E; [|reflexivity].
  apply app_eq_nil in E as [-> E]. destruct s as [|c s]; [reflexivity|].
  apply (f_equal (@length Card)) in E. rewrite length_rev in E. discriminate.
Qed.

Lemma draw_mode_one_cycle_witness :
  AI.replay (mkState [] [] [mkCard Club 5 false; mkCard Heart 9 false] [] (Some 1%nat))
    (repeat (AI.mkMove AI.draw_stock LStock LWaste None 15 1) 3)
  = Some (mkState [] [] [mkCard Club 5 false; mkCard Heart 9 false] [] (Some 1%nat)).
Proof.
  apply (draw_mode_one_cycle
           (mkState [] [] [mkCard Club 5 false; mkCard Heart 9 false] [] (Some 1%nat))
           (AI.mkMove AI.draw_stock LStock LWaste None 15 1)); reflexivity.
Defined.

End AIProps.

(** * Further properties of the solver worker *)

Module SolverMore.

Lemma search_length now mT sT r : forall gs sq env bm env',
  Solver.search now mT sT r gs sq env = (Some (true, bm), env') ->
  exists suffix, bm = sq ++ suffix /\ (length suffix < r)%nat.
Proof.
  induction r as [|r IH]; intros gs sq env bm env' H.
  - simpl in H; destruct (mT <? _); discriminate.
  - SolverProps.search_cases H; try discriminate.
    + inversion H; subst. exists []. rewrite app_nil_r. cbn; split; [reflexivity|lia].
    + destruct (SolverProps.search_loop_true _ _ _ _ _ _ _ _ H)
        as (m & ns & e0 & e1 & _ & Ha & Hr).
      destruct (IH _ _ _ _ _ Hr) as (suffix & Hbm & Hl).
      exists (m :: suffix). rewrite <- app_assoc in Hbm. cbn [length app] in *.
      split; [exact Hbm|lia].
Qed.

Lemma collect_none {A} (f : nat -> option (list A)) l i :
  In i l -> f i = None -> collect f l = None.
Proof.
  induction l as [|a l IH]; intros Hi Hf; [destruct Hi|]. cbn [collect].
  destruct Hi as [<-|Hi]; [rewrite Hf; reflexivity|].
  destruct (f a); [|reflexivity]. rewrite (IH Hi Hf). reflexivity.
Qed.

(** A solution reported by [solve] is shorter than [maxDepth] (200 by
    default) and [minMoves] is its length; with [maxDepth] 0 no state is
    reported solvable, not even a won one. *)
Theorem solve_depth_bound now env gs md :
  (Solver.solvable (fst (Solver.solve now env gs md)) = true ->
   (length (Solver.bestMoves (fst (Solver.solve now env gs md)))
      < match md with Some d => d | None => 200 end)%nat /\
   Solver.minMoves (fst (Solver.solve now env gs md))
     = Z.of_nat (length (Solver.bestMoves (fst (Solver.solve now env gs md))))) /\
  Solver.solvable (fst (Solver.solve now env gs (Some 0%nat))) = false.
Proof.
  split.
  - unfold Solver.solve.
    destruct (Solver.search now Solver.maxTime (now (Solver.tick env))
                match md with Some d => d | None => 200%nat end gs []
                (Solver.mkEnv [] (S (Solver.tick env)))) as [[[[|] bm]|] e] eqn:E;
      cbn [fst Solver.solvable Solver.bestMoves Solver.minMoves]; intros H; try discriminate.
    destruct (search_length _ _ _ _ _ _ _ _ _ E) as (suffix & -> & Hl).
    split; [exact Hl|reflexivity].
  - unfold Solver.solve. cbn [Solver.search]. destruct (_ <? _); reflexivity.
Qed.

Lemma solve_depth_bound_witness :
  Solver.solvable (fst (Solver.solve (fun _ => 0) (Solver.mkEnv [] 0) ex_one_move None)) = true /\
  Nat.lt (length (Solver.bestMoves
                    (fst (Solver.solve (fun _ => 0) (Solver.mkEnv [] 0) ex_one_move None))))
         200.
Proof.
  split; [vm_compute; reflexivity|].
  apply (proj1 (solve_depth_bound (fun _ => 0) (Solver.mkEnv [] 0) ex_one_move None)).
  vm_compute; reflexivity.
Defined.

(** [generateAllMoves] throws exactly when the tableau has fewer than 7
    columns (it reads [gameState.tableau[col].length] for every [col < 7]);
    [solve] then reports the error, and no solution, for such a state that
    is not won, when [maxDepth] is not 0 and the time budget holds. *)
Theorem generateAllMoves_error gs :
  (Solver.generateAllMoves gs = None <-> (length (tableau gs) < 7)%nat) /\
  forall now env md,
    (length (tableau gs) < 7)%nat -> Solver.isGameWon gs = false -> md <> Some 0%nat ->
    now (S (Solver.tick env)) - now (Solver.tick env) <= Solver.maxTime ->
    Solver.error (fst (Solver.solve now env gs md)) = Some tt /\
    Solver.solvable (fst (Solver.solve now env gs md)) = false.
Proof.
  assert (N : (length (tableau gs) < 7)%nat -> Solver.generateAllMoves gs = None).
  { intros Hl. unfold Solver.generateAllMoves.
    assert (E : Solver.gen_tableau_to_foundation gs = None).
    { unfold Solver.gen_tableau_to_foundation.
      apply (collect_none _ _ (length (tableau gs))).
      - unfold cols. apply in_seq. lia.
      - assert (nth_error (tableau gs) (length (tableau gs)) = None)
          by (apply nth_error_None; lia).
        rewrite H. reflexivity. }
    rewrite E. destruct (Solver.gen_waste_to_tableau gs); reflexivity. }
  split; [split|].
  - intros G. destruct (Nat.lt_ge_cases (length (tableau gs)) 7) as [Hl|Hl]; [exact Hl|].
    exfalso. exact (SolverProps.generateAllMoves_some gs Hl G).
  - exact N.
  - intros now env md Hl Hw Hmd Ht. unfold Solver.solve.
    assert (E : (Solver.maxTime <? now (S (Solver.tick env)) - now (Solver.tick env)) = false)
      by (apply Z.ltb_ge; exact Ht).
    destruct md as [[|d]|]; [contradiction| |];
      cbn [Solver.search Solver.tick Solver.visited]; rewrite E, Hw;
      unfold Solver.set_has; cbn [in_dec]; rewrite (N Hl); split; reflexivity.
Qed.

Lemma generateAllMoves_error_witness :
  Solver.generateAllMoves (mkState [[]; []] empty_foundations [] [] None) = None /\
  Solver.error (fst (Solver.solve (fun _ => 0) (Solver.mkEnv [] 0)
                      (mkState [[]; []] empty_foundations [] [] None) None)) = Some tt.
Proof.
  split.
  - apply (proj1 (generateAllMoves_error (mkState [[]; []] empty_foundations [] [] None))).
    cbn; lia.
  - apply (proj2 (generateAllMoves_error (mkState [[]; []] empty_foundations [] [] None))
             (fun _ => 0) (Solver.mkEnv [] 0) None);
      [cbn; lia|reflexivity|discriminate|unfold Solver.maxTime; lia].
Defined.

End SolverMore.

(** * Properties relating the two workers *)

Module CrossProps.

Lemma update_suit_keys fs s p : map fst (update_suit fs s p) = map fst fs.
Proof.
  induction fs as [|[k q] fs IH]; simpl; [reflexivity|].
  destruct (suit_eqb k s); simpl; [reflexivity|]. rewrite IH. reflexivity.
Qed.

Lemma fnd_set_keys fs l p : map fst (fnd_set fs l p) = map fst fs.
Proof. destruct l; try reflexivity. apply update_suit_keys. Qed.

Lemma nth_error_set_nth_eq {A} (l : list A) i x y :
  nth_error l i = Some y -> nth_error (set_nth l i x) i = Some x.
Proof.
  revert i; induction l as [|z l IH]; intros [|i] H; simpl in *; try discriminate; auto.
Qed.

Lemma nth_error_set_nth_neq {A} (l : list A) i j x :
  i <> j -> nth_error (set_nth l i x) j = nth_error l j.
Proof.
  revert i j; induction l as [|z l IH]; intros [|i] [|j] H; simpl; auto; try lia.
Qed.

Lemma take_faceup_rev_length l : (length (Solver.take_faceup_rev l) <= length l)%nat.
Proof. induction l as [|c l IH]; simpl; [lia|]. destruct (faceUp c); simpl; lia. Qed.

Lemma faceUpCards_length p : (length (Solver.faceUpCards p) <= length p)%nat.
Proof.
  unfold Solver.faceUpCards. rewrite length_rev.
  pose proof (take_faceup_rev_length (rev p)). rewrite length_rev in H. exact H.
Qed.

Lemma canPlaceOnFoundation_lookup c fs :
  Solver.canPlaceOnFoundation c fs = true -> exists p, lookup_suit fs (suit c) = Some p.
Proof.
  unfold Solver.canPlaceOnFoundation. destruct (lookup_suit fs (suit c)); [eauto|discriminate].
Qed.

Lemma solver_generated_apply gs ms m :
  Solver.generateAllMoves gs = Some ms -> In m ms -> Solver.applyMove gs m <> None.
Proof.
  unfold Solver.generateAllMoves.
  destruct (Solver.gen_waste_to_tableau gs) as [wt|] eqn:E1; [|discriminate].
  destruct (Solver.gen_tableau_to_foundation gs) as [tf|] eqn:E2; [|discriminate].
  destruct (Solver.gen_tableau_to_tableau gs) as [tabtab|] eqn:E3; [|discriminate].
  intros H; injection H as <-. intros Hin.
  unfold Solver.applyMove, Solver.cloneGameState.
  repeat (apply in_app_or in Hin as [Hin|Hin]).
  - unfold Solver.gen_stock_to_waste in Hin. destruct (stock gs); [contradiction|].
    destruct Hin as [<-|[]]; cbn. destruct (top _); discriminate.
  - unfold Solver.gen_waste_to_foundation in Hin.
    destruct (top (waste gs)) as [wc|] eqn:T; [|contradiction].
    destruct (Solver.canPlaceOnFoundation wc (foundations gs)) eqn:C; [|contradiction].
    destruct Hin as [<-|[]]. cbn [Solver.mtype Solver.mto waste foundations fnd_at].
    rewrite T. destruct (canPlaceOnFoundation_lookup _ _ C) as [p Hp]. rewrite Hp.
    discriminate.
  - unfold Solver.gen_waste_to_tableau in E1.
    destruct (top (waste gs)) as [wc|] eqn:T; [|injection E1 as <-; contradiction].
    destruct (SolverRank.collect_in _ _ _ _ E1 Hin) as (i & ys & _ & Hf' & Hy).
    destruct (nth_error (tableau gs) i) as [p|] eqn:N; [|discriminate].
    injection Hf' as <-. destruct (Solver.canPlaceOnTableau wc p); [|contradiction].
    destruct Hy as [<-|[]]. cbn [Solver.mtype Solver.mto waste tableau tab_at].
    rewrite T, N. discriminate.
  - unfold Solver.gen_tableau_to_foundation in E2.
    destruct (SolverRank.collect_in _ _ _ _ E2 Hin) as (i & ys & _ & Hf' & Hy).
    destruct (nth_error (tableau gs) i) as [p|] eqn:N; [|discriminate].
    injection Hf' as <-. destruct (top p) as [tc|] eqn:T; [|contradiction].
    destruct (faceUp tc && Solver.canPlaceOnFoundation tc (foundations gs)) eqn:C;
      [|contradiction].
    apply andb_prop in C as [_ C].
    destruct Hy as [<-|[]].
    cbn [Solver.mtype Solver.mto Solver.mfrom tableau foundations tab_at fnd_at].
    rewrite N, T. destruct (canPlaceOnFoundation_lookup _ _ C) as [q Hq]. rewrite Hq.
    discriminate.
  - unfold Solver.gen_tableau_to_tableau in E3.
    destruct (SolverRank.collect_in _ _ _ _ E3 Hin) as (i & ys & _ & Hf' & Hy).
    destruct (nth_error (tableau gs) i) as [[|c0 p]|] eqn:N;
      [injection Hf' as <-; contradiction| |discriminate].
    destruct (SolverRank.collect_in _ _ _ _ Hf' Hy) as (k & zs & Hk & Hkz & Hz).
    apply in_seq in Hk.
    pose proof (faceUpCards_length (c0 :: p)) as Hfl.
    destruct (Solver.faceUpCards (c0 :: p)) as [|c1 fu]; [injection Hkz as <-; contradiction|].
    unfold Solver.tt_targets in Hkz.
    destruct (SolverRank.collect_in _ _ _ _ Hkz Hz) as (j & ws & _ & Hj & Hw).
    destruct (Nat.eqb i j) eqn:Eij; [injection Hj as <-; contradiction|].
    apply Nat.eqb_neq in Eij.
    destruct (nth_error (tableau gs) j) as [tp|] eqn:Nj; [|discriminate].
    injection Hj as <-. destruct (Solver.canPlaceOnTableau c1 tp); [|contradiction].
    destruct Hw as [<-|[]].
    cbn [Solver.mtype Solver.mto Solver.mfrom Solver.sequenceLength tableau foundations
         tab_at tab_set].
    destruct k as [|k]; [lia|].
    rewrite N. cbn [length] in Hk, Hfl |- *.
    destruct (S k <=? S (length p))%nat eqn:L; [|apply Nat.leb_nle in L; lia].
    rewrite (nth_error_set_nth_neq _ _ _ _ Eij), Nj.
    rewrite (nth_error_set_nth_neq _ _ _ _ (not_eq_sym Eij)).
    erewrite nth_error_set_nth_eq; [discriminate|exact N].
Qed.

Lemma ai_generated_apply fuel gs ms m :
  AI.generateAllPossibleMoves fuel gs = Some ms -> In m ms -> AI.applyMoveToState gs m <> None.
Proof.
  destruct fuel as [|f]; [discriminate|].
  intros H Hin. cbn [AI.generateAllPossibleMoves] in H.
  destruct (stock gs) eqn:Es; [destruct (waste gs) eqn:Ew|];
    try (destruct (AI.analyzeStock_with (AI.generateAllPossibleMoves f) gs); [|discriminate]);
    pose proof (f_equal (fun o => match o with Some x => x | None => ms end) H) as Hms;
    cbv beta iota in Hms; subst ms; AIRank.in_cases;
    unfold AI.applyMoveToState, AI.cloneGameState;
    cbn [AI.mtype AI.mto AI.mfrom tableau foundations stock waste tab_at fnd_at tab_set];
    repeat match goal with
    | E : nth_error _ _ = Some _ |- _ => rewrite E
    | E : top _ = Some _ |- _ => rewrite E
    | E : waste _ = _ |- _ => rewrite E
    | E : stock _ = _ |- _ => rewrite E
    end; try discriminate;
    repeat match goal with |- context [match ?x with _ => _ end] => destruct x end;
    try discriminate.
Qed.

(** The two workers' placement rules agree: [canPlaceOnTableau] is the same
    function in both, and the solver's [canPlaceOnFoundation] on the
    foundations object gives the AI worker's answer on the pile of the
    card's suit, when that pile holds only cards of that suit. *)
Theorem placement_rules_agree c p fs pile :
  Solver.canPlaceOnTableau c p = AI.canPlaceOnTableau c p /\
  (lookup_suit fs (suit c) = Some pile -> (forall d, In d pile -> suit d = suit c) ->
   Solver.canPlaceOnFoundation c fs = AI.canPlaceOnFoundation c pile).
Proof.
  split.
  - unfold Solver.canPlaceOnTableau, AI.canPlaceOnTableau.
    destruct (top p) as [tc|]; [|reflexivity].
    destruct (faceUp tc); [|reflexivity]. cbn [negb].
    destruct (isBlack (suit c)), (isBlack (suit tc)); reflexivity.
  - intros L S. unfold Solver.canPlaceOnFoundation, AI.canPlaceOnFoundation. rewrite L.
    destruct (top pile) as [tc|] eqn:T; [|reflexivity].
    rewrite (S tc (SortProps.top_in pile tc T)).
    unfold suit_eqb. destruct (Suit_eq_dec (suit c) (suit c)) as [_|n]; [|contradiction].
    cbn [andb]. destruct (value c =? value tc + 1) eqn:E1, (value tc =? value c - 1) eqn:E2;
      try reflexivity; rewrite ?Z.eqb_eq, ?Z.eqb_neq in *; lia.
Qed.

Lemma placement_rules_agree_witness :
  Solver.canPlaceOnFoundation (mkCard Spade 13 true) (foundations ex_one_move)
  = AI.canPlaceOnFoundation (mkCard Spade 13 true) (run Spade 12).
Proof.
  apply (proj2 (placement_rules_agree (mkCard Spade 13 true) []
                  (foundations ex_one_move) (run Spade 12)));
    [reflexivity|].
  intros d Hd. unfold run in Hd. apply in_map_iff in Hd as (k & <- & _). reflexivity.
Defined.

(** Neither worker's apply function changes the shape of a state: the
    number of tableau columns and the foundation keys, in their order, stay
    as they were. *)
Theorem apply_keeps_shape :
  (forall gs m gs', Solver.applyMove gs m = Some gs' ->
     length (tableau gs') = length (tableau gs) /\
     map fst (foundations gs') = map fst (foundations gs)) /\
  (forall gs m gs', AI.applyMoveToState gs m = Some gs' ->
     length (tableau gs') = length (tableau gs) /\
     map fst (foundations gs') = map fst (foundations gs)).
Proof.
  split; intros gs m gs'.
  - unfold Solver.applyMove, Solver.cloneGameState; cbn [tableau foundations stock waste].
    destruct (Solver.mtype m); repeat match goal with
      | |- context [match ?x with _ => _ end] => destruct x
      | |- Some _ = Some _ -> _ => let H := fresh in intros H; injection H as <-
      | |- None = Some _ -> _ => let H := fresh in intros H; discriminate H
      end; cbn [tableau foundations]; rewrite ?SolverProps.tab_set_length, ?fnd_set_keys; auto.
  - unfold AI.applyMoveToState, AI.cloneGameState; cbn [tableau foundations stock waste drawMode].
    destruct (AI.mtype m); repeat match goal with
      | |- context [match ?x with _ => _ end] => destruct x
      | |- Some _ = Some _ -> _ => let H := fresh in intros H; injection H as <-
      | |- None = Some _ -> _ => let H := fresh in intros H; discriminate H
      end; cbn [tableau foundations]; rewrite ?SolverProps.tab_set_length, ?fnd_set_keys; auto.
Qed.

Lemma apply_keeps_shape_witness :
  length (tableau (match Solver.applyMove ex_king_queen
                     (Solver.mkMove Solver.tableau_to_tableau (LCol 0) (LCol 1)
                        (Some (mkCard Heart 12 true)) (Some 1%nat))
                   with Some g => g | None => ex_king_queen end)) = 7%nat.
Proof.
  apply (proj1 apply_keeps_shape ex_king_queen
           (Solver.mkMove Solver.tableau_to_tableau (LCol 0) (LCol 1)
              (Some (mkCard Heart 12 true)) (Some 1%nat))).
  vm_compute; reflexivity.
Defined.

(** Every move either worker's generator returns can be applied by that
    worker's apply function: the solver's [applyMove] never returns [null]
    for it, and [applyMoveToState] never pushes [undefined] for it. *)
Theorem generated_moves_apply :
  (forall gs ms m, Solver.generateAllMoves gs = Some ms -> In m ms ->
     Solver.applyMove gs m <> None) /\
  (forall fuel gs ms m, AI.generateAllPossibleMoves fuel gs = Some ms -> In m ms ->
     AI.applyMoveToState gs m <> None).
Proof.
  split; [exact solver_generated_apply|exact ai_generated_apply].
Qed.

Lemma generated_moves_apply_witness :
  Solver.applyMove ex_one_move
    (Solver.mkMove Solver.tableau_to_tableau (LCol 0) (LCol 1)
       (Some (mkCard Spade 13 true)) (Some 1%nat)) <> None /\
  AI.applyMoveToState ex_one_move
    (AI.mkMove AI.tableau_to_foundation (LCol 0) (LSuit Spade)
       (Some (mkCard Spade 13 true)) 1013 0) <> None.
Proof.
  split.
  - apply (proj1 generated_moves_apply ex_one_move
             (match Solver.generateAllMoves ex_one_move with Some l => l | None => [] end));
      [vm_compute; reflexivity|vm_compute; right; left; reflexivity].
  - apply (proj2 generated_moves_apply 1%nat ex_one_move
             (match AI.generateAllPossibleMoves 1%nat ex_one_move with Some l => l | None => [] end));
      [vm_compute; reflexivity|vm_compute; left; reflexivity].
Defined.

End CrossProps.
